(** * Side-pass scenario stages (modules/planning/scenarios/side_pass/side_pass_stage.cc)

    A shallow embedding of the five [Process] methods of the side-pass
    scenario and the properties of its stage machine.

    The stage code computes on C++ [double].  Every arithmetic operation,
    comparison and literal of the translation unit goes through the
    interface [Double], so the same embedding runs on IEEE-754 binary64
    (the instance over [PrimFloat.float], which is what the program
    executes) and on exact rationals (the instance over [Q]).  The
    properties that depend on the order of numbers are proved from the
    laws [DoubleStrictOrder] and [DoubleOrderedArith], which both
    instances satisfy. *)

From Stdlib Require Import Bool List String ZArith QArith Lia.
From Stdlib Require Import Floats.
From Stdlib Require Import Permutation.
Import ListNotations.

#[local] Set Warnings "-inexact-float".

Set Implicit Arguments.

(** ** The arithmetic of [double] *)

Declare Scope double_scope.
Delimit Scope double_scope with double.

(** The operations the source applies to doubles, and the literals it
    writes: [0.0] (line 78), [0.3] (line 75), [1.0] and [-1.0] (lines
    144-145), [3.0] (line 39), [15.0] (line 67), and the integers [1000]
    (line 167) and [0] (line 190) converted to double. *)
Class Double (D : Type) : Type := {
  dadd : D -> D -> D;
  dsub : D -> D -> D;
  dlt : D -> D -> bool;
  dle : D -> D -> bool;
  lit_0 : D;
  lit_0_3 : D;
  lit_1 : D;
  lit_neg_1 : D;
  lit_3 : D;
  lit_15 : D;
  lit_1000 : D
}.

Infix "+" := dadd : double_scope.
Infix "-" := dsub : double_scope.
Infix "<?" := dlt : double_scope.
Infix "<=?" := dle : double_scope.
Notation "a >? b" := (dlt b a) (at level 70, only parsing) : double_scope.
Notation "a >=? b" := (dle b a) (at level 70, only parsing) : double_scope.

(** IEEE-754 binary64, the arithmetic the compiled program runs on.  The
    literal [0.3] is the binary64 value nearest to three tenths. *)
#[export] Instance Double_float : Double float := {
  dadd := PrimFloat.add;
  dsub := PrimFloat.sub;
  dlt := PrimFloat.ltb;
  dle := PrimFloat.leb;
  lit_0 := 0%float;
  lit_0_3 := 0.3%float;
  lit_1 := 1%float;
  lit_neg_1 := (-1)%float;
  lit_3 := 3%float;
  lit_15 := 15%float;
  lit_1000 := 1000%float
}.

Definition Qlt_bool (a b : Q) : bool := negb (Qle_bool b a).

(** Exact rational arithmetic: no rounding, no infinities, no NaN. *)
#[export] Instance Double_Q : Double Q := {
  dadd := Qplus;
  dsub := Qminus;
  dlt := Qlt_bool;
  dle := Qle_bool;
  lit_0 := 0%Q;
  lit_0_3 := (3 # 10)%Q;
  lit_1 := 1%Q;
  lit_neg_1 := (- 1)%Q;
  lit_3 := 3%Q;
  lit_15 := 15%Q;
  lit_1000 := 1000%Q
}.

(** [std::max(a, b)] is [(a < b) ? b : a] and [std::min(a, b)] is
    [(b < a) ? b : a]. *)
Definition std_max {D} `{Double D} (a b : D) : D :=
  if (a <? b)%double then b else a.

Definition std_min {D} `{Double D} (a b : D) : D :=
  if (b <? a)%double then b else a.

(** ** Stage status and stage types *)

(** Modelled from the spec: [Stage::StageStatus] is declared in the stage
    base class, outside this translation unit; the cycle outcome is one
    of RUNNING, FINISHED and ERROR. *)
Inductive StageStatus : Type :=
| ERROR
| RUNNING
| FINISHED.

(** Modelled from the spec: [ScenarioConfig::StageType] is declared in a
    protobuf file outside this translation unit.  The enumerators are the
    spec's phases under the names the source uses for them; the spec
    calls the stop-on-waypoint stage type, which [SidePassGeneratePath]
    hands over to, the DETECT_SAFETY phase. *)
Inductive StageType : Type :=
| NO_STAGE
| SIDE_PASS_BACKUP
| SIDE_PASS_APPROACH_OBSTACLE
| SIDE_PASS_GENERATE_PATH
| SIDE_PASS_STOP_ON_WAITPOINT
| SIDE_PASS_PASS_OBSTACLE.

Definition SIDE_PASS_DETECT_SAFETY : StageType := SIDE_PASS_STOP_ON_WAITPOINT.

(** The five stage classes of the translation unit. *)
Inductive SidePassStage : Type :=
| SidePassBackup
| SidePassApproachObstacle
| SidePassGeneratePath
| SidePassDetectSafety
| SidePassPassObstacle.

(** ** Scene data *)

Section Scene.

Context {D : Type}.

(** [SLBoundary]: the footprint of an object in station / lateral offset. *)
Record SLBoundary : Type := {
  start_s : D;
  end_s : D;
  start_l : D;
  end_l : D
}.

Record SLPoint : Type := { sl_s : D; sl_l : D }.

Record FrenetFramePoint : Type := { frenet_s : D; frenet_l : D }.

Record Vec2d : Type := { vec_x : D; vec_y : D }.

Record PathPoint : Type := { pp_x : D; pp_y : D }.

Record TrajectoryPoint : Type := { path_point : PathPoint; tp_v : D }.

Record Box2d : Type := {
  center : Vec2d;
  length : D;
  width : D;
  heading : D
}.

(** The members of [Obstacle] the stages read. *)
Record Obstacle : Type := {
  Id : string;
  IsVirtual : bool;
  IsStatic : bool;
  speed : D;
  PerceptionSLBoundary : SLBoundary;
  PerceptionBoundingBox : Box2d
}.

(** [ReferenceLine], through the four methods the stages call.
    [GetLaneWidth] and [XYToSL] return [bool] in the source and write
    their results through pointers; [None] is the [false] return, which
    leaves the pointed-to variables as they were. *)
Record ReferenceLine : Type := {
  GetLaneWidth : D -> option (D * D);
  HasOverlap : Box2d -> bool;
  GetFrenetPoint : PathPoint -> FrenetFramePoint;
  XYToSL : Vec2d -> option SLPoint
}.

(** The scenario configuration's thresholds. *)
Record ScenarioConfig : Type := {
  block_obstacle_min_speed : D;
  approach_obstacle_max_stop_speed : D;
  approach_obstacle_min_stop_distance : D;
  side_pass_exit_distance : D
}.

End Scene.

Arguments SLBoundary : clear implicits.
Arguments SLPoint : clear implicits.
Arguments FrenetFramePoint : clear implicits.
Arguments Vec2d : clear implicits.
Arguments PathPoint : clear implicits.
Arguments TrajectoryPoint : clear implicits.
Arguments Box2d : clear implicits.
Arguments Obstacle : clear implicits.
Arguments ReferenceLine : clear implicits.
Arguments ScenarioConfig : clear implicits.

(** [PathData], through the methods the stages call on it.  The two
    mutating methods return their [bool] together with the object as they
    leave it.  [EndPoint] is [discretized_path().EndPoint()]. *)
Class PathDataOps (D PathData : Type) : Type := {
  UpdateFrenetFramePath : ReferenceLine D -> PathData -> bool * PathData;
  LeftTrimWithRefS : D -> D -> PathData -> bool * PathData;
  path_points : PathData -> list (PathPoint D);
  EndPoint : PathData -> PathPoint D
}.

Section Frame.

Context {D PathData : Type}.

(** One path recorded in the debug sink: its name and its points. *)
Record DebugPath : Type := {
  debug_name : string;
  debug_path_point : list (PathPoint D)
}.

(** [ReferenceLineInfo]: the record of the frame the stages read and
    overwrite.  [path_decision] is [path_decision().obstacles().Items()],
    [debug] is [debug().planning_data().path()]. *)
Record ReferenceLineInfo : Type := {
  AdcSlBoundary : SLBoundary D;
  path_decision : list (Obstacle D);
  reference_line : ReferenceLine D;
  path_data : PathData;
  trajectory : list (TrajectoryPoint D);
  debug : list DebugPath
}.

(** [Frame].  The stages take [reference_line_info().front()], so the
    list is held as its first element and the rest. *)
Record Frame : Type := {
  front : ReferenceLineInfo;
  reference_line_info_rest : list ReferenceLineInfo;
  vehicle_state_linear_velocity : D;
  PlanningStartPoint : TrajectoryPoint D
}.

(** The side-pass context shared by the stages ([GetContext()]). *)
Record SidePassContext : Type := {
  scenario_config_ : ScenarioConfig D;
  path_data_ : PathData
}.

(** What a [Process] call reads and writes: the stage object's
    [next_stage_], the shared context, and the frame behind [Frame*]. *)
Record Stage : Type := {
  next_stage_ : StageType;
  GetContext : SidePassContext;
  frame : Frame
}.

Definition set_next_stage_ (n : StageType) (st : Stage) : Stage :=
  {| next_stage_ := n; GetContext := GetContext st; frame := frame st |}.

Definition set_frame (f : Frame) (st : Stage) : Stage :=
  {| next_stage_ := next_stage_ st; GetContext := GetContext st; frame := f |}.

Definition set_path_data_ (pd : PathData) (st : Stage) : Stage :=
  {| next_stage_ := next_stage_ st;
     GetContext := {| scenario_config_ := scenario_config_ (GetContext st);
                      path_data_ := pd |};
     frame := frame st |}.

Definition set_front (r : ReferenceLineInfo) (f : Frame) : Frame :=
  {| front := r;
     reference_line_info_rest := reference_line_info_rest f;
     vehicle_state_linear_velocity := vehicle_state_linear_velocity f;
     PlanningStartPoint := PlanningStartPoint f |}.

(** [*(rfl_info.mutable_path_data()) = pd]. *)
Definition set_path_data (pd : PathData) (r : ReferenceLineInfo) : ReferenceLineInfo :=
  {| AdcSlBoundary := AdcSlBoundary r;
     path_decision := path_decision r;
     reference_line := reference_line r;
     path_data := pd;
     trajectory := trajectory r;
     debug := debug r |}.

(** [mutable_debug()->mutable_planning_data()->add_path()] followed by
    [set_name] and [CopyFrom] on the new entry. *)
Definition add_debug_path (p : DebugPath) (r : ReferenceLineInfo) : ReferenceLineInfo :=
  {| AdcSlBoundary := AdcSlBoundary r;
     path_decision := path_decision r;
     reference_line := reference_line r;
     path_data := path_data r;
     trajectory := trajectory r;
     debug := debug r ++ [p] |}.

End Frame.

Arguments DebugPath : clear implicits.
Arguments ReferenceLineInfo : clear implicits.
Arguments Frame : clear implicits.
Arguments SidePassContext : clear implicits.
Arguments Stage : clear implicits.

(** ** The stages *)

Section Stages.

Context {D PathData : Type} `{Double D} `{PathDataOps D PathData}.

Local Open Scope double_scope.

(** [Stage::PlanningOnReferenceLine], a method of the stage base class
    defined outside this translation unit: it runs the optimizer tasks on
    the frame and reports success.  It returns its [bool] together with
    the frame as it leaves it. *)
Variable PlanningOnReferenceLine :
  TrajectoryPoint D -> Frame D PathData -> bool * Frame D PathData.

(** The command-line flag [FLAGS_static_decision_nudge_l_buffer]
    (planning_gflags). *)
Variable FLAGS_static_decision_nudge_l_buffer : D.

Definition kExtraMarginforStopOnWaitPointStage : D := lit_3.

Definition kAdcDistanceThreshold : D := lit_15.

Definition kLBufferThreshold : D := lit_0_3.

(** Lines 78-81: both widths start at [0.0] and the result of
    [GetLaneWidth] is not inspected. *)
Definition lane_width_at (reference_line : ReferenceLine D) (s : D) : D * D :=
  match GetLaneWidth reference_line s with
  | Some w => w
  | None => (lit_0, lit_0)
  end.

(** Lines 82-87. *)
Definition driving_width (lane_left_width lane_right_width : D)
  (sl : SLBoundary D) : D :=
  let driving_width :=
    std_max (lane_left_width - end_l sl) (lane_right_width + start_l sl) in
  std_min (lane_left_width + lane_right_width) driving_width
  - FLAGS_static_decision_nudge_l_buffer.

(** *** SidePassBackup *)

(** The loop of lines 54-95.  Each [continue] moves on to the rest of the
    items; reaching line 93 sets the flag and leaves the loop.  The
    [CHECK] of line 58 stands behind the guard that has skipped every
    obstacle that is not static, so it never fires. *)
Fixpoint SidePassBackup_has_blocking_obstacle
  (config : ScenarioConfig D) (reference_line : ReferenceLine D)
  (adc_sl_boundary : SLBoundary D) (items : list (Obstacle D)) : bool :=
  match items with
  | [] => false
  | obstacle :: rest =>
    let continue :=
      SidePassBackup_has_blocking_obstacle config reference_line
        adc_sl_boundary rest in
    if IsVirtual obstacle || negb (IsStatic obstacle) then continue
    else if speed obstacle >? block_obstacle_min_speed config then continue
    else if start_s (PerceptionSLBoundary obstacle) <=? end_s adc_sl_boundary
    then continue
    else if start_s (PerceptionSLBoundary obstacle)
            >? end_s adc_sl_boundary + kAdcDistanceThreshold
    then continue
    else
      let '(lane_left_width, lane_right_width) :=
        lane_width_at reference_line (start_s (PerceptionSLBoundary obstacle)) in
      if driving_width lane_left_width lane_right_width
           (PerceptionSLBoundary obstacle) >? kLBufferThreshold
      then continue
      else true
  end.

Definition SidePassBackup_Process (planning_start_point : TrajectoryPoint D)
  (st : Stage D PathData) : StageStatus * Stage D PathData :=
  let adc_sl_boundary := AdcSlBoundary (front (frame st)) in
  let path_decision := path_decision (front (frame st)) in
  let has_blocking_obstacle :=
    SidePassBackup_has_blocking_obstacle
      (scenario_config_ (GetContext st))
      (reference_line (front (frame st))) adc_sl_boundary path_decision in
  if negb has_blocking_obstacle then
    (FINISHED, set_next_stage_ NO_STAGE st)
  else
    let (plan_ok, frame') :=
      PlanningOnReferenceLine planning_start_point (frame st) in
    let st := set_frame frame' st in
    if negb plan_ok then (ERROR, st) else (RUNNING, st).

(** *** SidePassApproachObstacle *)

(** One pass of the body of the loop of lines 125-149 on the flag: the
    loop has no [break], the flag once set stays set.  The [CHECK] of
    line 129 never fires, as in [SidePassBackup]. *)
Definition SidePassApproachObstacle_blocking_step
  (config : ScenarioConfig D) (adc_sl_boundary : SLBoundary D)
  (has_blocking_obstacle : bool) (obstacle : Obstacle D) : bool :=
  if IsVirtual obstacle || negb (IsStatic obstacle) then has_blocking_obstacle
  else if speed obstacle >? block_obstacle_min_speed config
  then has_blocking_obstacle
  else if start_s (PerceptionSLBoundary obstacle) <=? end_s adc_sl_boundary
  then has_blocking_obstacle
  else if start_s (PerceptionSLBoundary obstacle)
          >? end_s adc_sl_boundary + kAdcDistanceThreshold
  then has_blocking_obstacle
  else if (start_l (PerceptionSLBoundary obstacle) >? lit_1)
          || (end_l (PerceptionSLBoundary obstacle) <? lit_neg_1)
  then has_blocking_obstacle
  else true.

Definition SidePassApproachObstacle_has_blocking_obstacle
  (config : ScenarioConfig D) (adc_sl_boundary : SLBoundary D)
  (items : list (Obstacle D)) : bool :=
  fold_left (SidePassApproachObstacle_blocking_step config adc_sl_boundary)
    items false.

(** One pass of the body of the loop of lines 168-188 on
    [front_obstacle_distance]. *)
Definition front_obstacle_distance_step
  (reference_line_info : ReferenceLineInfo D PathData) (adc_front_edge_s : D)
  (front_obstacle_distance : D) (obstacle : Obstacle D) : D :=
  if IsVirtual obstacle then front_obstacle_distance
  else
    let is_on_road :=
      HasOverlap (reference_line reference_line_info)
        (PerceptionBoundingBox obstacle) in
    if negb is_on_road then front_obstacle_distance
    else
      let obstacle_sl := PerceptionSLBoundary obstacle in
      if end_s obstacle_sl <=? start_s (AdcSlBoundary reference_line_info)
      then front_obstacle_distance
      else
        let distance := start_s obstacle_sl - adc_front_edge_s in
        if distance <? front_obstacle_distance then distance
        else front_obstacle_distance.

(** Lines 167-188. *)
Definition front_obstacle_distance
  (reference_line_info : ReferenceLineInfo D PathData) (adc_front_edge_s : D)
  (items : list (Obstacle D)) : D :=
  fold_left (front_obstacle_distance_step reference_line_info adc_front_edge_s)
    items lit_1000.

(** [adc_sl_boundary], [path_decision] and [reference_line_info] are
    references into the frame: what is read through them after the call
    of [PlanningOnReferenceLine] is read from the frame as the planner
    left it. *)
Definition SidePassApproachObstacle_Process
  (planning_start_point : TrajectoryPoint D)
  (st : Stage D PathData) : StageStatus * Stage D PathData :=
  let has_blocking_obstacle :=
    SidePassApproachObstacle_has_blocking_obstacle
      (scenario_config_ (GetContext st))
      (AdcSlBoundary (front (frame st))) (path_decision (front (frame st))) in
  if negb has_blocking_obstacle then
    (FINISHED, set_next_stage_ NO_STAGE st)
  else
    let (plan_ok, frame') :=
      PlanningOnReferenceLine planning_start_point (frame st) in
    let st := set_frame frame' st in
    if negb plan_ok then (ERROR, st)
    else
      let reference_line_info := front (frame st) in
      let adc_velocity := vehicle_state_linear_velocity (frame st) in
      let adc_front_edge_s := end_s (AdcSlBoundary reference_line_info) in
      let front_obstacle_distance :=
        front_obstacle_distance reference_line_info adc_front_edge_s
          (path_decision reference_line_info) in
      if front_obstacle_distance <? lit_0 then (ERROR, st)
      else
        let max_stop_velocity :=
          approach_obstacle_max_stop_speed (scenario_config_ (GetContext st)) in
        let min_stop_obstacle_distance :=
          approach_obstacle_min_stop_distance
            (scenario_config_ (GetContext st)) in
        if (adc_velocity <? max_stop_velocity)
           && (front_obstacle_distance >? min_stop_obstacle_distance)
        then (FINISHED, set_next_stage_ SIDE_PASS_GENERATE_PATH st)
        else (RUNNING, st).

(** *** SidePassGeneratePath *)

Definition SidePassGeneratePath_Process
  (planning_start_point : TrajectoryPoint D)
  (st : Stage D PathData) : StageStatus * Stage D PathData :=
  let (plan_ok, frame') :=
    PlanningOnReferenceLine planning_start_point (frame st) in
  let st := set_frame frame' st in
  if negb plan_ok then
    (FINISHED, set_next_stage_ SIDE_PASS_BACKUP st)
  else
    let st := set_path_data_ (path_data (front (frame st))) st in
    if (0 <? List.length (trajectory (front (frame st))))%nat then
      (FINISHED, set_next_stage_ SIDE_PASS_STOP_ON_WAITPOINT st)
    else (RUNNING, st).

(** *** SidePassDetectSafety *)

(** The condition of lines 278-279 on one obstacle.  [substr(0, 3)] of a
    shorter identifier is the whole identifier. *)
Definition is_unsafe_marker (adc_front_edge_s : D) (obstacle : Obstacle D) : bool :=
  IsVirtual obstacle
  && String.eqb (String.substring 0 3 (Id obstacle)) "SP_"
  && (start_s (PerceptionSLBoundary obstacle) >=? adc_front_edge_s).

(** The loop of lines 276-283: the value of [is_safe] after it. *)
Fixpoint SidePassDetectSafety_is_safe (adc_front_edge_s : D)
  (items : list (Obstacle D)) : bool :=
  match items with
  | [] => true
  | obstacle :: rest =>
    if is_unsafe_marker adc_front_edge_s obstacle then false
    else SidePassDetectSafety_is_safe adc_front_edge_s rest
  end.

Definition SidePassDetectSafety_Process
  (planning_start_point : TrajectoryPoint D)
  (st : Stage D PathData) : StageStatus * Stage D PathData :=
  let (update_success, updated) :=
    UpdateFrenetFramePath (reference_line (front (frame st)))
      (path_data_ (GetContext st)) in
  let st := set_path_data_ updated st in
  if negb update_success then (ERROR, st)
  else
    let adc_frenet_frame_point_ :=
      GetFrenetPoint (reference_line (front (frame st)))
        (path_point (PlanningStartPoint (frame st))) in
    let (trim_success, trimmed) :=
      LeftTrimWithRefS (frenet_s adc_frenet_frame_point_)
        (frenet_l adc_frenet_frame_point_) (path_data_ (GetContext st)) in
    let st := set_path_data_ trimmed st in
    if negb trim_success then (ERROR, st)
    else
      let rfl_info := set_path_data (path_data_ (GetContext st)) (front (frame st)) in
      let debug_path :=
        {| debug_name := "DpPolyPathOptimizer";
           debug_path_point := path_points (path_data rfl_info) |} in
      let rfl_info := add_debug_path debug_path rfl_info in
      let st := set_frame (set_front rfl_info (frame st)) st in
      let (plan_ok, frame') :=
        PlanningOnReferenceLine planning_start_point (frame st) in
      let st := set_frame frame' st in
      if negb plan_ok then (ERROR, st)
      else
        let adc_front_edge_s := end_s (AdcSlBoundary (front (frame st))) in
        let is_safe :=
          SidePassDetectSafety_is_safe adc_front_edge_s
            (path_decision (front (frame st))) in
        if is_safe then
          (FINISHED, set_next_stage_ SIDE_PASS_PASS_OBSTACLE st)
        else (RUNNING, st).

(** *** SidePassPassObstacle *)

Definition SidePassPassObstacle_Process
  (planning_start_point : TrajectoryPoint D)
  (st : Stage D PathData) : StageStatus * Stage D PathData :=
  let (update_success, updated) :=
    UpdateFrenetFramePath (reference_line (front (frame st)))
      (path_data_ (GetContext st)) in
  let st := set_path_data_ updated st in
  if negb update_success then (ERROR, st)
  else
    let adc_frenet_frame_point_ :=
      GetFrenetPoint (reference_line (front (frame st)))
        (path_point (PlanningStartPoint (frame st))) in
    let (trim_success, trimmed) :=
      LeftTrimWithRefS (frenet_s adc_frenet_frame_point_)
        (frenet_l adc_frenet_frame_point_) (path_data_ (GetContext st)) in
    let st := set_path_data_ trimmed st in
    if negb trim_success then (ERROR, st)
    else
      let rfl_info := set_path_data (path_data_ (GetContext st)) (front (frame st)) in
      let debug_path :=
        {| debug_name := "DpPolyPathOptimizer";
           debug_path_point := path_points (path_data rfl_info) |} in
      let rfl_info := add_debug_path debug_path rfl_info in
      let st := set_frame (set_front rfl_info (frame st)) st in
      let (plan_ok, frame') :=
        PlanningOnReferenceLine planning_start_point (frame st) in
      let st := set_frame frame' st in
      if negb plan_ok then (ERROR, st)
      else
        let reference_line_info := front (frame st) in
        let adc_sl_boundary := AdcSlBoundary reference_line_info in
        let end_point := EndPoint (path_data reference_line_info) in
        let last_xy_point :=
          {| vec_x := pp_x end_point; vec_y := pp_y end_point |} in
        match XYToSL (reference_line reference_line_info) last_xy_point with
        | None => (ERROR, st)
        | Some sl_point =>
          let distance_to_path_end :=
            sl_s sl_point
            - side_pass_exit_distance (scenario_config_ (GetContext st)) in
          let adc_velocity := vehicle_state_linear_velocity (frame st) in
          let max_velocity_for_stop :=
            approach_obstacle_max_stop_speed
              (scenario_config_ (GetContext st)) in
          if (end_s adc_sl_boundary >? distance_to_path_end)
             || (adc_velocity <? max_velocity_for_stop)
          then (FINISHED, set_next_stage_ NO_STAGE st)
          else (RUNNING, st)
        end.

(** *** The stage machine *)

(** [Stage::Process] is virtual: the call goes to the class of the stage
    object. *)
Definition Process (stage : SidePassStage)
  : TrajectoryPoint D -> Stage D PathData -> StageStatus * Stage D PathData :=
  match stage with
  | SidePassBackup => SidePassBackup_Process
  | SidePassApproachObstacle => SidePassApproachObstacle_Process
  | SidePassGeneratePath => SidePassGeneratePath_Process
  | SidePassDetectSafety => SidePassDetectSafety_Process
  | SidePassPassObstacle => SidePassPassObstacle_Process
  end.

(** The next-stage directive a call emits: the value it left in
    [next_stage_] when it returned FINISHED, none otherwise. *)
Definition directive (r : StageStatus * Stage D PathData) : option StageType :=
  match fst r with
  | FINISHED => Some (next_stage_ (snd r))
  | _ => None
  end.

End Stages.

(** The transition table of the specification (section 4.5): the
    next-phase directives listed for each phase. *)
Definition transition_table (stage : SidePassStage) : list StageType :=
  match stage with
  | SidePassBackup => [NO_STAGE]
  | SidePassApproachObstacle => [NO_STAGE; SIDE_PASS_GENERATE_PATH]
  | SidePassGeneratePath => [SIDE_PASS_DETECT_SAFETY; SIDE_PASS_BACKUP]
  | SidePassDetectSafety => [SIDE_PASS_PASS_OBSTACLE]
  | SidePassPassObstacle => [NO_STAGE]
  end.

(** ** Predicates of the obstacle filters *)

Section Filters.

Context {D : Type} `{Double D}.

Local Open Scope double_scope.

(** The guards of lines 55-72 (and 126-143): what removes an obstacle
    from both entry filters before its lateral position is looked at. *)
Definition is_virtual_or_moving (obstacle : Obstacle D) : bool :=
  IsVirtual obstacle || negb (IsStatic obstacle).

Definition faster_than_cutoff (config : ScenarioConfig D)
  (obstacle : Obstacle D) : bool :=
  speed obstacle >? block_obstacle_min_speed config.

Definition behind_ego (adc_sl_boundary : SLBoundary D)
  (obstacle : Obstacle D) : bool :=
  start_s (PerceptionSLBoundary obstacle) <=? end_s adc_sl_boundary.

Definition outside_window (adc_sl_boundary : SLBoundary D)
  (obstacle : Obstacle D) : bool :=
  start_s (PerceptionSLBoundary obstacle)
  >? end_s adc_sl_boundary + kAdcDistanceThreshold.

Definition filtered_out (config : ScenarioConfig D)
  (adc_sl_boundary : SLBoundary D) (obstacle : Obstacle D) : bool :=
  is_virtual_or_moving obstacle
  || faster_than_cutoff config obstacle
  || behind_ego adc_sl_boundary obstacle
  || outside_window adc_sl_boundary obstacle.

(** Lines 75-91 on one obstacle: the driving width beside it does not
    exceed [kLBufferThreshold]. *)
Definition is_lateral_blocker (nudge_l_buffer : D)
  (reference_line : ReferenceLine D) (obstacle : Obstacle D) : bool :=
  let w :=
    lane_width_at reference_line (start_s (PerceptionSLBoundary obstacle)) in
  negb (driving_width nudge_l_buffer (fst w) (snd w)
          (PerceptionSLBoundary obstacle) >? kLBufferThreshold).

(** Lines 144-147 on one obstacle: its lateral extent meets [-1, 1]. *)
Definition overlaps_corridor (obstacle : Obstacle D) : bool :=
  negb ((start_l (PerceptionSLBoundary obstacle) >? lit_1)
        || (end_l (PerceptionSLBoundary obstacle) <? lit_neg_1)).

(** Lines 169-182 on one obstacle: it takes part in the nearest-distance
    loop. *)
Definition is_ahead_on_road {PathData : Type}
  (reference_line_info : ReferenceLineInfo D PathData)
  (obstacle : Obstacle D) : bool :=
  negb (IsVirtual obstacle)
  && HasOverlap (reference_line reference_line_info)
       (PerceptionBoundingBox obstacle)
  && negb (end_s (PerceptionSLBoundary obstacle)
           <=? start_s (AdcSlBoundary reference_line_info)).

End Filters.

(** ** What the stages compute on the state of a call *)

Section StageViews.

Context {D PathData : Type} `{Double D} `{PathDataOps D PathData}.

(** The entry filter of [SidePassBackup] on the state of a call. *)
Definition Backup_entry_filter (nudge_l_buffer : D) (st : Stage D PathData)
  : bool :=
  SidePassBackup_has_blocking_obstacle nudge_l_buffer
    (scenario_config_ (GetContext st)) (reference_line (front (frame st)))
    (AdcSlBoundary (front (frame st))) (path_decision (front (frame st))).

(** The entry filter of [SidePassApproachObstacle] on the state of a call. *)
Definition ApproachObstacle_entry_filter (st : Stage D PathData) : bool :=
  SidePassApproachObstacle_has_blocking_obstacle
    (scenario_config_ (GetContext st))
    (AdcSlBoundary (front (frame st))) (path_decision (front (frame st))).

(** The nearest-ahead-on-road distance as [SidePassApproachObstacle]
    computes it on the frame the planner left (lines 162-188). *)
Definition nearest_ahead_on_road (f : Frame D PathData) : D :=
  front_obstacle_distance (front f) (end_s (AdcSlBoundary (front f)))
    (path_decision (front f)).

(** The unsafe-virtual-marker filter of the specification (section 4.2)
    on a frame: some obstacle is virtual, has an identifier that begins
    with "SP_" and starts at or beyond the ego's front edge. *)
Definition has_unsafe_marker (f : Frame D PathData) : bool :=
  existsb
    (fun o => IsVirtual o && String.prefix "SP_" (Id o)
              && (start_s (PerceptionSLBoundary o)
                  >=? end_s (AdcSlBoundary (front f)))%double)
    (path_decision (front f)).

(** Lines 244-246 (and 305-307): the ego's Frenet point. *)
Definition adc_frenet_frame_point (f : Frame D PathData) : FrenetFramePoint D :=
  GetFrenetPoint (reference_line (front f))
    (path_point (PlanningStartPoint f)).

(** Lines 256-266 (and 317-330): the frame once the trimmed path is
    installed as its working path and recorded in the debug sink. *)
Definition install_path (pd : PathData) (f : Frame D PathData) : Frame D PathData :=
  set_front
    (add_debug_path
       {| debug_name := "DpPolyPathOptimizer";
          debug_path_point := path_points pd |}
       (set_path_data pd (front f))) f.

End StageViews.

(** ** The hand-off of the stored path and the call of the planner *)

Section PlannerCall.

Context {D PathData : Type} `{Double D} `{PathDataOps D PathData}.

(** Lines 236-254 (and 297-315): the stored path is projected again on
    the reference line and trimmed at the ego's Frenet point, in place;
    the result tells whether both calls succeeded.  When the update fails
    the path is not trimmed. *)
Definition hand_off (st : Stage D PathData) : bool * Stage D PathData :=
  let (update_success, updated) :=
    UpdateFrenetFramePath (reference_line (front (frame st)))
      (path_data_ (GetContext st)) in
  let st := set_path_data_ updated st in
  if negb update_success then (false, st)
  else
    let adc_frenet_frame_point_ := adc_frenet_frame_point (frame st) in
    let (trim_success, trimmed) :=
      LeftTrimWithRefS (frenet_s adc_frenet_frame_point_)
        (frenet_l adc_frenet_frame_point_) (path_data_ (GetContext st)) in
    (trim_success, set_path_data_ trimmed st).

(** Whether a call of the stage gets as far as its call of
    [PlanningOnReferenceLine] (lines 103, 155, 216, 268 and 332). *)
Definition reaches_planner (nudge_l_buffer : D) (stage : SidePassStage)
  (st : Stage D PathData) : bool :=
  match stage with
  | SidePassBackup => Backup_entry_filter nudge_l_buffer st
  | SidePassApproachObstacle => ApproachObstacle_entry_filter st
  | SidePassGeneratePath => true
  | SidePassDetectSafety | SidePassPassObstacle => fst (hand_off st)
  end.

(** The frame as it is at that call: the frame of the stage, with the
    path handed off installed in it by the two stages that follow a
    stored path. *)
Definition planner_input (stage : SidePassStage) (st : Stage D PathData)
  : Frame D PathData :=
  match stage with
  | SidePassDetectSafety | SidePassPassObstacle =>
    install_path (path_data_ (GetContext (snd (hand_off st)))) (frame st)
  | _ => frame st
  end.

End PlannerCall.

(** ** Laws of the arithmetic *)

(** [<] is a strict partial order.  It holds of binary64, where every
    comparison with a NaN is false, and of the rationals. *)
Class DoubleStrictOrder (D : Type) `{Double D} : Prop := {
  dlt_irrefl : forall a : D, (a <? a)%double = false;
  dlt_trans : forall a b c : D,
    (a <? b)%double = true -> (b <? c)%double = true -> (a <? c)%double = true
}.

(** An arithmetic with finite numbers ([dfinite]: neither a NaN nor an
    infinity) and ordered numbers ([dordered]: not a NaN): [<=] compares
    ordered numbers only and orders them totally, and adding or
    subtracting a finite number is monotone.  It holds of binary64 and of
    the rationals, where every number is finite. *)
Class DoubleOrderedArith (D : Type) `{Double D} : Type := {
  dfinite : D -> bool;
  dordered : D -> bool;
  dfinite_ordered : forall a : D, dfinite a = true -> dordered a = true;
  dle_ordered : forall a b : D,
    (a <=? b)%double = true -> dordered a = true /\ dordered b = true;
  dlt_ordered : forall a b : D,
    (a <? b)%double = true -> dordered a = true /\ dordered b = true;
  dle_refl : forall a : D, dordered a = true -> (a <=? a)%double = true;
  dle_trans : forall a b c : D,
    (a <=? b)%double = true -> (b <=? c)%double = true -> (a <=? c)%double = true;
  dle_total : forall a b : D,
    dordered a = true -> dordered b = true ->
    (a <=? b)%double = false -> (b <=? a)%double = true;
  dlt_dle : forall a b : D,
    dordered a = true -> dordered b = true ->
    (a <? b)%double = negb (b <=? a)%double;
  dadd_mono_l : forall a b c : D,
    dfinite c = true ->
    (a <=? b)%double = true -> (a + c <=? b + c)%double = true;
  dadd_mono_r : forall a b c : D,
    dfinite c = true ->
    (a <=? b)%double = true -> (c + a <=? c + b)%double = true;
  dsub_mono_l : forall a b c : D,
    dfinite c = true ->
    (a <=? b)%double = true -> (a - c <=? b - c)%double = true
}.

Arguments DoubleStrictOrder D {_}.
Arguments DoubleOrderedArith D {_}.

(** The lane of [narrow] is, at every station, no wider than the lane of
    [wide] on either side, all widths being finite. *)
Definition no_wider {D : Type} `{DoubleOrderedArith D}
  (narrow wide : ReferenceLine D) : Prop :=
  forall s : D,
    let n := lane_width_at narrow s in
    let w := lane_width_at wide s in
    (dfinite (fst n) = true /\ dfinite (snd n) = true)
    /\ (dfinite (fst w) = true /\ dfinite (snd w) = true)
    /\ (fst n <=? fst w)%double = true
    /\ (snd n <=? snd w)%double = true.

(** ** Binary64 in integer units *)

Section Binary64Units.

Local Open Scope Z_scope.

(** What [n] steps of [shr_1] make of the mantissa [M]: its quotient by
    [2^n], the round bit (the remainder reaches half of [2^n]) and the
    sticky bit (the remainder is neither zero nor that half). *)
Definition shr_invariant (M : Z) (n : Z) (mrs : shr_record) : Prop :=
  let q := 2 ^ n in
  let rem := M - shr_m mrs * q in
  0 <= shr_m mrs /\ 0 <= rem < q
  /\ shr_r mrs = (q <=? 2 * rem)
  /\ shr_s mrs = negb ((2 * rem =? 0) || (2 * rem =? q)).

(** Rounding to nearest, ties to even, of [q * P + rem]: whether the
    quotient [q] goes up. *)
Definition round_up (P rem q : Z) : bool :=
  if P <=? 2 * rem then (if 2 * rem =? P then Z.odd q else true) else false.

(** A positive integer rounded to 53 significant bits. *)
Definition rne_units (N : Z) : Z :=
  let P := 2 ^ Z.max (Z.log2 N + 1 - 53) 0 in
  let q := N / P in
  (q + Z.b2z (round_up P (N mod P) q)) * P.

(** Values are counted in units of [2^-1074], the least positive
    binary64 number; [2^2098] units are [2^1024], where binary64
    overflows. *)
Definition units_infinity : Z := 2 ^ 2098.

(** The rounding of binary64 on a number of units, overflow included. *)
Definition round_units (N : Z) : Z :=
  Z.sgn N * Z.min (rne_units (Z.abs N)) units_infinity.

(** The value of a binary64 number in units, the infinities standing at
    the overflow threshold. *)
Definition SF_units (x : spec_float) : Z :=
  match x with
  | S754_zero _ => 0
  | S754_nan => 0
  | S754_infinity s => cond_Zopp s units_infinity
  | S754_finite s m e => cond_Zopp s (Zpos m * 2 ^ (e + 1074))
  end.

(** Neither an infinity nor a NaN. *)
Definition SF_finite (x : spec_float) : bool :=
  match x with
  | S754_zero _ | S754_finite _ _ _ => true
  | _ => false
  end.

(** Not a NaN. *)
Definition SF_ordered (x : spec_float) : bool :=
  match x with
  | S754_nan => false
  | _ => true
  end.

(** A function of the units applied to finite numbers, infinities left
    as they are. *)
Definition lift_units (f : Z -> Z) (x : spec_float) : Z :=
  if SF_finite x then f (SF_units x) else SF_units x.

Definition float_finite (x : float) : bool := SF_finite (Prim2SF x).

Definition float_ordered (x : float) : bool := SF_ordered (Prim2SF x).

Definition float_units (x : float) : Z := SF_units (Prim2SF x).

End Binary64Units.

(** The nearest-ahead-on-road distance in the words of the specification
    (section 4.2): the minimum of [start_s - ego end_s] over the obstacles
    taken into account, or the sentinel when none qualifies. *)
Definition nearest_distance_as_specified {D PathData : Type} `{Double D}
  (reference_line_info : ReferenceLineInfo D PathData) (adc_front_edge_s : D)
  (items : list (Obstacle D)) : D :=
  match map (fun o => (start_s (PerceptionSLBoundary o) - adc_front_edge_s)%double)
          (filter (is_ahead_on_road reference_line_info) items) with
  | [] => lit_1000
  | d :: ds => fold_left std_min ds d
  end.

(** ** Scenes of the specification's scenarios, on binary64 *)

Module Scenario.

Local Open Scope float_scope.

(** A stored path is the list of its points; on the straight road below
    the station of a point is its [x].  Updating succeeds on every path;
    trimming drops the points behind the given station and fails when
    none is left. *)
Definition Path : Type := list (PathPoint float).

Definition origin : PathPoint float := {| pp_x := 0; pp_y := 0 |}.

Definition point_at (s : float) : PathPoint float := {| pp_x := s; pp_y := 0 |}.

Definition trim (s : float) (path : Path) : bool * Path :=
  let kept := filter (fun p => s <=? pp_x p) path in
  (match kept with [] => false | _ :: _ => true end, kept).

#[export] Instance PathDataOps_Path : PathDataOps float Path := {
  UpdateFrenetFramePath := fun _ path => (true, path);
  LeftTrimWithRefS := fun s _ path => trim s path;
  path_points := fun path => path;
  EndPoint := fun path => last path origin
}.

(** A straight road along the x axis: station is [x], lateral offset is
    [y], and a box is on the road when its centre is within 3 m of the
    centre line. *)
Definition road (lane_left_width lane_right_width : float) : ReferenceLine float := {|
  GetLaneWidth := fun _ => Some (lane_left_width, lane_right_width);
  HasOverlap := fun box =>
    (-3 <=? vec_y (center box)) && (vec_y (center box) <=? 3);
  GetFrenetPoint := fun p => {| frenet_s := pp_x p; frenet_l := pp_y p |};
  XYToSL := fun xy => Some {| sl_s := vec_x xy; sl_l := vec_y xy |}
|}.

Definition config : ScenarioConfig float := {|
  block_obstacle_min_speed := 0.1;
  approach_obstacle_max_stop_speed := 2;
  approach_obstacle_min_stop_distance := 5;
  side_pass_exit_distance := 3
|}.

Definition nudge_l_buffer : float := 0.3.

(** The ego's footprint with its front edge at station [front_edge]. *)
Definition ego (front_edge : float) : SLBoundary float := {|
  start_s := front_edge - 4;
  end_s := front_edge;
  start_l := -1;
  end_l := 1
|}.

(** A parked car with the given footprint. *)
Definition parked (id : string) (s0 s1 l0 l1 : float) : Obstacle float := {|
  Id := id;
  IsVirtual := false;
  IsStatic := true;
  speed := 0;
  PerceptionSLBoundary :=
    {| start_s := s0; end_s := s1; start_l := l0; end_l := l1 |};
  PerceptionBoundingBox :=
    {| center := {| vec_x := (s0 + s1) / 2; vec_y := (l0 + l1) / 2 |};
       length := s1 - s0;
       width := l1 - l0;
       heading := 0 |}
|}.

(** A virtual obstacle at station [s0]. *)
Definition marker (id : string) (s0 : float) : Obstacle float := {|
  Id := id;
  IsVirtual := true;
  IsStatic := true;
  speed := 0;
  PerceptionSLBoundary :=
    {| start_s := s0; end_s := s0 + 0.1; start_l := -2; end_l := 2 |};
  PerceptionBoundingBox :=
    {| center := {| vec_x := s0; vec_y := 0 |};
       length := 0.1;
       width := 4;
       heading := 0 |}
|}.

(** The obstacle of the scenario of section 8. *)
Definition parked_car : Obstacle float := parked "1001" 10 14 (-0.5) 2.

Definition car_ahead (distance : float) : Obstacle float :=
  parked "1002" distance (distance + 4) (-0.5) 0.5.

Definition car_beside_lane : Obstacle float := parked "1003" 10 14 1.5 3.5.

(** A load that reaches into the corridor from the roadside: its lateral
    extent meets [-1, 1], its bounding box is off the road. *)
Definition roadside_load : Obstacle float := parked "1004" 6 10 0.9 7.

Definition scene (front_edge velocity : float) (lane : ReferenceLine float)
  (obstacles : list (Obstacle float)) (path : Path)
  (points : list (TrajectoryPoint float)) : Frame float Path := {|
  front := {| AdcSlBoundary := ego front_edge;
              path_decision := obstacles;
              reference_line := lane;
              path_data := path;
              trajectory := points;
              debug := [] |};
  reference_line_info_rest := [];
  vehicle_state_linear_velocity := velocity;
  PlanningStartPoint := {| path_point := point_at (front_edge - 2); tp_v := velocity |}
|}.

Definition stage_on (own : StageType) (stored : Path) (f : Frame float Path)
  : Stage float Path := {|
  next_stage_ := own;
  GetContext := {| scenario_config_ := config; path_data_ := stored |};
  frame := f
|}.

Definition start_point : TrajectoryPoint float :=
  {| path_point := origin; tp_v := 0 |}.

(** Planners: one that fails, one that succeeds and leaves the frame as
    it is, one that succeeds with the given path, trajectory and
    obstacles. *)
Definition planner_fails (_ : TrajectoryPoint float) (f : Frame float Path)
  : bool * Frame float Path := (false, f).

Definition planner_keeps (_ : TrajectoryPoint float) (f : Frame float Path)
  : bool * Frame float Path := (true, f).

Definition planner_yields (path : Path) (points : list (TrajectoryPoint float))
  (obstacles : list (Obstacle float))
  (_ : TrajectoryPoint float) (f : Frame float Path) : bool * Frame float Path :=
  (true,
   set_front {| AdcSlBoundary := AdcSlBoundary (front f);
                path_decision := obstacles;
                reference_line := reference_line (front f);
                path_data := path;
                trajectory := points;
                debug := debug (front f) |} f).

(** The scenes the scenarios run on. *)
Definition backup_scene : Stage float Path :=
  stage_on SIDE_PASS_BACKUP []
    (scene 0 1 (road 1.8 1.8) [parked_car] [] []).

Definition approach_scene (obstacles : list (Obstacle float))
  : Stage float Path :=
  stage_on SIDE_PASS_APPROACH_OBSTACLE []
    (scene 0 1 (road 1.8 1.8) obstacles [] []).

Definition generate_path_scene : Stage float Path :=
  stage_on SIDE_PASS_GENERATE_PATH []
    (scene 0 0 (road 1.8 1.8) [car_ahead 6] [] []).

Definition detect_safety_scene : Stage float Path :=
  stage_on SIDE_PASS_DETECT_SAFETY [point_at 0; point_at 20]
    (scene 2 0 (road 1.8 1.8) [car_ahead 6] [] []).

Definition pass_obstacle_scene (front_edge : float) : Stage float Path :=
  stage_on SIDE_PASS_PASS_OBSTACLE [point_at 40; point_at 55]
    (scene front_edge 5 (road 1.8 1.8) [] [] []).

End Scenario.

(** ** The laws at the two instances *)

Lemma Qlt_bool_iff (a b : Q) : Qlt_bool a b = true <-> (a < b)%Q.
Proof.
  unfold Qlt_bool. rewrite negb_true_iff, <- not_true_iff_false, Qle_bool_iff.
  split; [apply Qnot_le_lt | apply Qlt_not_le].
Qed.

Lemma Qle_bool_false (a b : Q) : Qle_bool a b = false <-> (b < a)%Q.
Proof.
  rewrite <- not_true_iff_false, Qle_bool_iff.
  split; [apply Qnot_le_lt | apply Qlt_not_le].
Qed.

#[export] Instance DoubleStrictOrder_Q : DoubleStrictOrder Q.
Proof.
  split; cbn.
  - intro a. unfold Qlt_bool. apply negb_false_iff, Qle_bool_iff, Qle_refl.
  - intros a b c. rewrite !Qlt_bool_iff. apply Qlt_trans.
Qed.

#[export] Instance DoubleOrderedArith_Q : DoubleOrderedArith Q.
Proof.
  refine {| dfinite := fun _ => true; dordered := fun _ => true |}; cbn.
  - reflexivity.
  - intros; split; reflexivity.
  - intros; split; reflexivity.
  - intros a _. apply Qle_bool_iff, Qle_refl.
  - intros a b c. rewrite !Qle_bool_iff. apply Qle_trans.
  - intros a b _ _. rewrite Qle_bool_false, Qle_bool_iff. apply Qlt_le_weak.
  - reflexivity.
  - intros a b c _. rewrite !Qle_bool_iff. intro Hab.
    apply Qplus_le_compat; [exact Hab | apply Qle_refl].
  - intros a b c _. rewrite !Qle_bool_iff. intro Hab.
    apply Qplus_le_compat; [apply Qle_refl | exact Hab].
  - intros a b c _. rewrite !Qle_bool_iff. intro Hab. unfold Qminus.
    apply Qplus_le_compat; [exact Hab | apply Qle_refl].
Defined.

(** The comparison of binary64 specified by [SFcompare] orders sign,
    exponent and mantissa lexicographically, and compares nothing with a
    NaN. *)
Lemma SFltb_irrefl (x : spec_float) : SFltb x x = false.
Proof.
  unfold SFltb.
  destruct x as [s | s | | s m e]; simpl; try destruct s; try reflexivity.
  all: rewrite Z.compare_refl.
  all: change (Pos.compare_cont Eq m m) with (Pos.compare m m).
  all: rewrite Pos.compare_refl; reflexivity.
Qed.

Lemma SFcompare_Lt_trans (x y z : spec_float) :
  SFcompare x y = Some Lt -> SFcompare y z = Some Lt -> SFcompare x z = Some Lt.
Proof.
  destruct x as [[] | [] | | [] mx ex], y as [[] | [] | | [] my ey],
    z as [[] | [] | | [] mz ez];
    simpl; try discriminate; try reflexivity; intros Hxy Hyz.
  all: change (Pos.compare_cont Eq ?a ?b) with (Pos.compare a b) in *.
  all: destruct (Z.compare_spec ex ey), (Z.compare_spec ey ez),
         (Z.compare_spec ex ez);
       try discriminate; try lia; try reflexivity; subst.
  all: destruct (Pos.compare_spec mx my), (Pos.compare_spec my mz),
         (Pos.compare_spec mx mz);
       simpl in *; try discriminate; try lia; try reflexivity.
Qed.

Lemma SFltb_trans (x y z : spec_float) :
  SFltb x y = true -> SFltb y z = true -> SFltb x z = true.
Proof.
  unfold SFltb. intros Hxy Hyz.
  rewrite (SFcompare_Lt_trans x y z); [reflexivity | |].
  - destruct (SFcompare x y) as [[] |]; congruence.
  - destruct (SFcompare y z) as [[] |]; congruence.
Qed.

#[export] Instance DoubleStrictOrder_float : DoubleStrictOrder float.
Proof.
  split; cbn.
  - intro a. rewrite ltb_spec. apply SFltb_irrefl.
  - intros a b c. rewrite !ltb_spec. apply SFltb_trans.
Qed.

(** ** Binary64 rounds monotonically

    The addition and subtraction of [PrimFloat] are specified by
    [SFadd] and [SFsub] of [SpecFloat]: the exact result, a multiple of
    [2^-1074], goes through [binary_normalize].  Counted in units of
    [2^-1074], [binary_normalize] is [round_units], a monotone function
    of integers, and comparing two valid numbers is comparing their
    units; so adding or subtracting a finite number keeps [<=]. *)

Section Binary64.

Local Open Scope Z_scope.

#[local] Unset Implicit Arguments.

(** The number of binary digits of a mantissa. *)
Lemma digits2_pos_bounds (m : positive) :
  2 ^ (Zpos (digits2_pos m) - 1) <= Zpos m < 2 ^ Zpos (digits2_pos m).
Proof.
  induction m as [m IH | m IH |]; cbn [digits2_pos].
  - rewrite Pos2Z.inj_succ.
    replace (Z.succ (Zpos (digits2_pos m)) - 1) with (Z.succ (Zpos (digits2_pos m) - 1)) by lia.
    rewrite !Z.pow_succ_r by lia. lia.
  - rewrite Pos2Z.inj_succ.
    replace (Z.succ (Zpos (digits2_pos m)) - 1) with (Z.succ (Zpos (digits2_pos m) - 1)) by lia.
    rewrite !Z.pow_succ_r by lia. lia.
  - cbn. lia.
Qed.

Lemma digits2_pos_log2 (m : positive) :
  Zpos (digits2_pos m) = Z.log2 (Zpos m) + 1.
Proof.
  pose proof (digits2_pos_bounds m) as Hb.
  rewrite (Z.log2_unique (Zpos m) (Zpos (digits2_pos m) - 1)); try lia.
  replace (Z.succ (Zpos (digits2_pos m) - 1)) with (Zpos (digits2_pos m)) by lia. exact Hb.
Qed.

Lemma Pos_iter_xO (d m : positive) :
  Zpos (Pos.iter xO m d) = Zpos m * 2 ^ Zpos d.
Proof.
  induction d as [| d IH] using Pos.peano_ind.
  - cbn. lia.
  - rewrite Pos.iter_succ, Pos2Z.inj_succ, Z.pow_succ_r by lia.
    rewrite Pos2Z.inj_xO, IH. lia.
Qed.

Lemma shr_invariant_0 (M : Z) : 0 <= M ->
  shr_invariant M 0 {| shr_m := M; shr_r := false; shr_s := false |}.
Proof.
  intro HM. unfold shr_invariant. cbn [shr_m shr_r shr_s]. change (2 ^ 0) with 1.
  replace (M - M * 1) with 0 by lia. cbn. repeat split; lia.
Qed.

Ltac decide_comparisons :=
  repeat match goal with
         | |- context [?a <=? ?b] => destruct (Z.leb_spec a b)
         | |- context [?a =? ?b] => destruct (Z.eqb_spec a b)
         end; cbn [negb orb andb]; try reflexivity; try lia.

(** One more [shr_1] keeps the invariant. *)
Lemma shr_invariant_step (M n : Z) (mrs : shr_record) :
  0 <= n -> shr_invariant M n mrs -> shr_invariant M (n + 1) (shr_1 mrs).
Proof.
  intros Hn. unfold shr_invariant. destruct mrs as [m r s]. cbn [shr_m shr_r shr_s].
  rewrite Z.pow_add_r by lia. change (2 ^ 1) with 2.
  set (q := 2 ^ n). assert (Hq : 0 < q) by (apply Z.pow_pos_nonneg; lia).
  intros [Hm [Hrem [Hr Hs]]].
  assert (Hrs : r || s = negb (M - m * q =? 0)).
  { rewrite Hr, Hs. decide_comparisons. }
  assert (Hpar : forall p b, m = 2 * p + Z.b2z b -> 0 <= p ->
     let rem' := M - p * (q * 2) in
     0 <= p /\ 0 <= rem' < q * 2 /\ b = (q * 2 <=? 2 * rem')
     /\ (r || s) = negb ((2 * rem' =? 0) || (2 * rem' =? q * 2))).
  { intros p b Hmp Hp rem'. subst rem'. rewrite Hrs. subst m.
    destruct b; cbn [Z.b2z] in *; (split; [lia |]); (split; [lia |]); split; decide_comparisons. }
  destruct m as [| [p | p |] | p]; cbn [shr_1 shr_m shr_r shr_s]; try lia.
  - apply (Hpar 0 false); cbn; lia.
  - apply (Hpar (Zpos p) true); cbn; lia.
  - apply (Hpar (Zpos p) false); cbn; lia.
  - apply (Hpar 0 true); cbn; lia.
Qed.

Lemma iter_pos_nat {A} (f : A -> A) (p : positive) (x : A) :
  iter_pos f p x = Nat.iter (Pos.to_nat p) f x.
Proof.
  revert x. induction p as [p IH | p IH |]; intro x; cbn [iter_pos].
  - rewrite !IH, Pos2Nat.inj_xI. cbn [Nat.iter Nat.mul].
    rewrite Nat.add_0_r, <- Nat.iter_add. cbn [Nat.iter].
    now rewrite <- Nat.iter_succ_r.
  - rewrite !IH, Pos2Nat.inj_xO. cbn [Nat.mul]. now rewrite Nat.add_0_r, <- Nat.iter_add.
  - reflexivity.
Qed.

Lemma shr_invariant_iter (M : Z) (n : nat) :
  0 <= M ->
  shr_invariant M (Z.of_nat n)
    (Nat.iter n shr_1 {| shr_m := M; shr_r := false; shr_s := false |}).
Proof.
  intro HM. induction n as [| n IH].
  - now apply shr_invariant_0.
  - rewrite Nat2Z.inj_succ, <- Z.add_1_r. cbn [Nat.iter].
    apply shr_invariant_step; [lia | exact IH].
Qed.

(** [rne_units] from any division of the number by its rounding step. *)
Lemma rne_units_char (N m1 P rem : Z) :
  0 < N -> P = 2 ^ Z.max (Z.log2 N + 1 - 53) 0 ->
  N = m1 * P + rem -> 0 <= rem < P ->
  rne_units N = (m1 + Z.b2z (round_up P rem m1)) * P.
Proof.
  intros HN HP HNeq Hrem. unfold rne_units. rewrite <- HP.
  assert (Hq : N / P = m1) by (symmetry; apply (Z.div_unique N P m1 rem); lia).
  assert (Hr : N mod P = rem) by (symmetry; apply (Z.mod_unique N P m1 rem); lia).
  now rewrite Hq, Hr.
Qed.

(** [binary_round] first shifts the mantissa left until its exponent is
    at most the canonical one; the value is kept. *)
Lemma shl_align_fexp_spec (mx : positive) (ex : Z) :
  -1074 <= ex ->
  exists mz ez,
    shl_align mx ex (fexp prec emax (Zpos (digits2_pos mx) + ex)) = (mz, ez)
    /\ Zpos mz * 2 ^ (ez + 1074) = Zpos mx * 2 ^ (ex + 1074)
    /\ -1074 <= ez <= fexp prec emax (Zpos (digits2_pos mz) + ez)
    /\ Zpos (digits2_pos mz) + ez = Zpos (digits2_pos mx) + ex.
Proof.
  intro Hex. unfold shl_align.
  set (E0 := fexp prec emax (Zpos (digits2_pos mx) + ex)).
  assert (HE0 : E0 = Z.max (Zpos (digits2_pos mx) + ex - 53) (-1074)) by reflexivity.
  destruct (E0 - ex) as [| p | p] eqn:Hd.
  - exists mx, ex. fold E0. repeat split; lia.
  - exists mx, ex. fold E0. repeat split; lia.
  - exists (Pos.iter xO mx p), E0.
    assert (Hdig : Zpos (digits2_pos (Pos.iter xO mx p)) = Zpos (digits2_pos mx) + Zpos p).
    { rewrite !digits2_pos_log2, Pos_iter_xO, Z.log2_mul_pow2 by lia. lia. }
    repeat split; try lia.
    + rewrite Pos_iter_xO, <- Z.mul_assoc, <- Z.pow_add_r by lia.
      f_equal. f_equal. lia.
    + rewrite Hdig. replace (Zpos (digits2_pos mx) + Zpos p + E0) with (Zpos (digits2_pos mx) + ex) by lia.
      fold E0. lia.
Qed.

(** [shr_fexp] then shifts right down to the canonical exponent. *)
Lemma shr_fexp_exact_spec (M ez : Z) :
  0 < M -> ez <= fexp prec emax (Zdigits2 M + ez) ->
  exists mrs,
    shr_fexp prec emax M ez loc_Exact = (mrs, fexp prec emax (Zdigits2 M + ez))
    /\ shr_invariant M (fexp prec emax (Zdigits2 M + ez) - ez) mrs.
Proof.
  intros HM Hez. unfold shr_fexp, shr. cbn [shr_record_of_loc].
  set (E0 := fexp prec emax (Zdigits2 M + ez)) in *.
  destruct (E0 - ez) as [| p | p] eqn:Hd; try lia.
  - exists {| shr_m := M; shr_r := false; shr_s := false |}.
    split; [f_equal; lia | apply shr_invariant_0; lia].
  - exists (iter_pos shr_1 p {| shr_m := M; shr_r := false; shr_s := false |}).
    split; [f_equal; lia |].
    rewrite iter_pos_nat, <- (positive_nat_Z p). apply shr_invariant_iter. lia.
Qed.

(** [round_nearest_even] on the round and sticky bits is [round_up] on
    the remainder. *)
Lemma round_nearest_even_spec (M n : Z) (mrs : shr_record) :
  0 <= n -> shr_invariant M n mrs ->
  round_nearest_even (shr_m mrs) (loc_of_shr_record mrs)
  = shr_m mrs + Z.b2z (round_up (2 ^ n) (M - shr_m mrs * 2 ^ n) (shr_m mrs)).
Proof.
  intros Hn. unfold shr_invariant, round_up. destruct mrs as [m r s]. cbn [shr_m shr_r shr_s].
  assert (Hq : 0 < 2 ^ n) by (apply Z.pow_pos_nonneg; lia).
  set (q := 2 ^ n) in *. set (rem := M - m * q).
  intros [Hm [Hrem [Hr Hs]]].
  destruct r, s; cbn [loc_of_shr_record round_nearest_even]; revert Hr Hs.
  - destruct (Z.leb_spec q (2 * rem)); [| discriminate].
    destruct (Z.eqb_spec (2 * rem) q); [| intros; cbn; lia].
    destruct (Z.eqb_spec (2 * rem) 0); cbn; discriminate.
  - destruct (Z.leb_spec q (2 * rem)); [| discriminate].
    destruct (Z.eqb_spec (2 * rem) q).
    + intros _ _. rewrite <- Z.negb_odd. destruct (Z.odd m); cbn; lia.
    + destruct (Z.eqb_spec (2 * rem) 0); cbn; [lia | discriminate].
  - destruct (Z.leb_spec q (2 * rem)); [discriminate |]. intros; cbn; lia.
  - destruct (Z.leb_spec q (2 * rem)); [discriminate |]. intros; cbn; lia.
Qed.

Lemma pow2_pos (a : Z) : 0 <= a -> 0 < 2 ^ a.
Proof. intro. apply Z.pow_pos_nonneg; lia. Qed.

Lemma scaled_lt_pow2 (x a b c : Z) :
  0 <= a -> 0 <= b -> 0 <= c -> 2 ^ a <= x < 2 ^ (a + 1) ->
  (x * 2 ^ b < 2 ^ c <-> a + b < c).
Proof.
  intros Ha Hb Hc Hx.
  pose proof (pow2_pos b Hb) as Hpb.
  split; intro Hlt.
  - destruct (Z.lt_ge_cases (a + b) c) as [L | L]; [exact L | exfalso].
    assert (2 ^ c <= 2 ^ (a + b)) by (apply Z.pow_le_mono_r; lia).
    rewrite Z.pow_add_r in * by lia. nia.
  - assert (2 ^ (a + 1 + b) <= 2 ^ c) by (apply Z.pow_le_mono_r; lia).
    rewrite (Z.pow_add_r 2 (a + 1) b) in * by lia. nia.
Qed.

(** The second [shr_fexp] of [binary_round_aux]: a mantissa that
    rounding carried to [2^53] is halved, and the final exponent is within
    range exactly when the value is below the overflow threshold. *)
Lemma renorm_spec (m2 E0 : Z) :
  -1074 <= E0 ->
  (0 < m2 < 2 ^ 53 /\ (E0 = -1074 \/ 2 ^ 52 <= m2)) \/ m2 = 2 ^ 53 ->
  exists m3 e3 r s,
    shr_fexp prec emax m2 E0 loc_Exact
    = ({| shr_m := Zpos m3; shr_r := r; shr_s := s |}, e3)
    /\ Zpos m3 * 2 ^ (e3 + 1074) = m2 * 2 ^ (E0 + 1074)
    /\ (e3 <= 971 <-> m2 * 2 ^ (E0 + 1074) < units_infinity).
Proof.
  intros HE0 [[Hm2 Hnorm] | Hm2].
  - destruct m2 as [| m | m]; try lia.
    pose proof (digits2_pos_bounds m) as Hd.
    assert (Hdle : Zpos (digits2_pos m) <= 53).
    { destruct (Z.le_gt_cases (Zpos (digits2_pos m)) 53) as [L | L]; [exact L | exfalso].
      assert (2 ^ 53 <= 2 ^ (Zpos (digits2_pos m) - 1)) by (apply Z.pow_le_mono_r; lia).
      lia. }
    assert (Hfexp : fexp prec emax (Zdigits2 (Zpos m) + E0) = E0).
    { unfold fexp. change (SpecFloat.emin prec emax) with (-1074). change prec with 53.
      cbn [Zdigits2]. destruct Hnorm as [-> | Hnorm]; [lia |].
      assert (53 <= Zpos (digits2_pos m)); [| lia].
      destruct (Z.le_gt_cases 53 (Zpos (digits2_pos m))) as [L | L]; [exact L | exfalso].
      assert (2 ^ Zpos (digits2_pos m) <= 2 ^ 52) by (apply Z.pow_le_mono_r; lia).
      lia. }
    exists m, E0, false, false. unfold shr_fexp. rewrite Hfexp, Z.sub_diag.
    cbn [shr shr_record_of_loc]. split; [reflexivity |]. split; [reflexivity |].
    unfold units_infinity. destruct Hnorm as [-> | Hnorm].
    + change (-1074 + 1074) with 0. change (2 ^ 0) with 1. split; [intro | lia].
      assert (2 ^ 53 < 2 ^ 2098) by (apply Z.pow_lt_mono_r; lia). lia.
    + rewrite (scaled_lt_pow2 (Zpos m) 52 (E0 + 1074) 2098) by (change (52 + 1) with 53; lia).
      lia.
  - subst m2. exists (2 ^ 52)%positive, (E0 + 1), false, false.
    assert (Hfexp : fexp prec emax (Zdigits2 (2 ^ 53) + E0) = E0 + 1).
    { unfold fexp. change (SpecFloat.emin prec emax) with (-1074). change prec with 53.
      change (Zdigits2 (2 ^ 53)) with 54. lia. }
    unfold shr_fexp. rewrite Hfexp. replace (E0 + 1 - E0) with 1 by lia.
    split; [reflexivity |]. split.
    + replace (E0 + 1 + 1074) with (1 + (E0 + 1074)) by lia.
      rewrite Z.pow_add_r by lia. change (Zpos (2 ^ 52)) with (2 ^ 52). change (2 ^ 1) with 2.
      change (2 ^ 53) with (2 ^ 52 * 2). lia.
    + unfold units_infinity. rewrite <- Z.pow_add_r by lia.
      rewrite <- Z.pow_lt_mono_r_iff by lia. lia.
Qed.

Lemma round_up_scale (q rem m c : Z) :
  0 < c -> round_up (q * c) (rem * c) m = round_up q rem m.
Proof.
  intro Hc. unfold round_up.
  destruct (Z.leb_spec (q * c) (2 * (rem * c))), (Z.leb_spec q (2 * rem));
    try nia; try reflexivity.
  destruct (Z.eqb_spec (2 * (rem * c)) (q * c)), (Z.eqb_spec (2 * rem) q);
    try nia; reflexivity.
Qed.

(** [binary_round] is [rne_units] on the units, capped at the overflow
    threshold, and never a NaN. *)
Lemma binary_round_units (sx : bool) (mx : positive) (ex : Z) :
  -1074 <= ex ->
  SF_units (binary_round prec emax sx mx ex)
  = cond_Zopp sx (Z.min (rne_units (Zpos mx * 2 ^ (ex + 1074))) units_infinity)
  /\ binary_round prec emax sx mx ex <> S754_nan.
Proof.
  intro Hex. unfold binary_round.
  destruct (shl_align_fexp_spec mx ex Hex) as (mz & ez & -> & HN & Hez & Hdig).
  rewrite <- HN. clear HN Hdig mx ex Hex.
  unfold binary_round_aux.
  destruct (shr_fexp_exact_spec (Zpos mz) ez) as (mrs & -> & Hinv);
    [lia | exact (proj2 Hez) |].
  cbn [Zdigits2] in *.
  set (E0 := fexp prec emax (Zpos (digits2_pos mz) + ez)) in *.
  assert (HE0 : E0 = Z.max (Zpos (digits2_pos mz) + ez - 53) (-1074)) by reflexivity.
  rewrite (round_nearest_even_spec (Zpos mz) (E0 - ez) mrs) by (lia || exact Hinv).
  pose proof (digits2_pos_bounds mz) as Hdg.
  set (dg := Zpos (digits2_pos mz)) in *.
  assert (Hq : 0 < 2 ^ (E0 - ez)) by (apply pow2_pos; lia).
  assert (Hc : 0 < 2 ^ (ez + 1074)) by (apply pow2_pos; lia).
  destruct Hinv as (Hm1 & Hrem & _ & _).
  set (q := 2 ^ (E0 - ez)) in *. set (m1 := shr_m mrs) in *.
  set (rem := Zpos mz - m1 * q) in *.
  set (m2 := m1 + Z.b2z (round_up q rem m1)).
  (* the value in units *)
  assert (Hval : rne_units (Zpos mz * 2 ^ (ez + 1074)) = m2 * 2 ^ (E0 + 1074)).
  { rewrite (rne_units_char (Zpos mz * 2 ^ (ez + 1074)) m1 (q * 2 ^ (ez + 1074))
               (rem * 2 ^ (ez + 1074))); try nia.
    - rewrite round_up_scale by lia. fold m2. unfold q.
      rewrite Z.mul_assoc, <- (Z.mul_assoc m2), <- Z.pow_add_r by lia.
      do 2 f_equal. lia.
    - rewrite Z.log2_mul_pow2 by lia. unfold q. rewrite <- Z.pow_add_r by lia.
      f_equal. pose proof (digits2_pos_log2 mz). fold dg in H. lia. }
  rewrite Hval.
  (* the bounds of the rounded mantissa *)
  assert (Hm2 : (0 < m2 < 2 ^ 53 /\ (E0 = -1074 \/ 2 ^ 52 <= m2)) \/ m2 = 2 ^ 53).
  { assert (Hup : 0 <= Z.b2z (round_up q rem m1) <= 1)
      by (destruct (round_up q rem m1); cbn; lia).
    destruct (Z.eq_dec E0 ez) as [En | En].
    - assert (q = 1) by (unfold q; rewrite En, Z.sub_diag; reflexivity).
      assert (rem = 0) by lia.
      assert (Hno : round_up q rem m1 = false).
      { unfold round_up. destruct (Z.leb_spec q (2 * rem)); [lia | reflexivity]. }
      subst m2. rewrite Hno. cbn [Z.b2z]. left.
      assert (m1 = Zpos mz) by lia.
      destruct (Z.eq_dec dg 53) as [Ed | Ed].
      + rewrite Ed in Hdg. change (53 - 1) with 52 in Hdg. lia.
      + assert (dg < 53) by lia.
        assert (2 ^ dg <= 2 ^ 52) by (apply Z.pow_le_mono_r; lia).
        assert (2 ^ 52 < 2 ^ 53) by (apply Z.pow_lt_mono_r; lia). lia.
    - assert (Hn : E0 - ez = dg - 53) by lia.
      assert (H53 : 2 ^ dg = 2 ^ 53 * q).
      { unfold q. rewrite Hn, <- Z.pow_add_r by lia. f_equal. lia. }
      assert (H52 : 2 ^ (dg - 1) = 2 ^ 52 * q).
      { unfold q. rewrite Hn, <- Z.pow_add_r by lia. f_equal. lia. }
      assert (2 ^ 52 <= m1 < 2 ^ 53) by nia.
      subst m2. destruct (round_up q rem m1); cbn [Z.b2z]; lia. }
  destruct (renorm_spec m2 E0 (proj1 (conj (Z.le_trans _ _ _ (proj1 Hez) (proj2 Hez)) I)) Hm2)
    as (m3 & e3 & r3 & s3 & -> & Hv3 & Hov).
  cbn [shr_m]. change (emax - prec) with 971.
  destruct (Z.leb_spec e3 971) as [L | L].
  - split; [| discriminate]. cbn [SF_units]. rewrite Hv3. f_equal. lia.
  - split; [| discriminate]. cbn [SF_units]. f_equal. lia.
Qed.

Lemma round_up_mono (P r r' q : Z) :
  r <= r' -> Z.b2z (round_up P r q) <= Z.b2z (round_up P r' q).
Proof.
  intro Hr. unfold round_up.
  destruct (Z.leb_spec P (2 * r)), (Z.leb_spec P (2 * r')); try lia;
    destruct (Z.eqb_spec (2 * r) P), (Z.eqb_spec (2 * r') P); try lia;
    destruct (Z.odd q); cbn; lia.
Qed.

Section RnePos.

Variable N : Z.
Hypothesis HN : 0 < N.

Let k := Z.max (Z.log2 N + 1 - 53) 0.
Let P := 2 ^ k.

Lemma rne_units_P_pos : 0 < P.
Proof. apply pow2_pos. unfold k. lia. Qed.

Lemma rne_units_between :
  N / P * P <= rne_units N <= (N / P + 1) * P.
Proof.
  pose proof rne_units_P_pos as HP.
  unfold rne_units. fold k. fold P.
  destruct (round_up P (N mod P) (N / P)); cbn [Z.b2z]; nia.
Qed.

Lemma rne_units_small : Z.log2 N + 1 <= 53 -> rne_units N = N.
Proof.
  intro Hs. unfold rne_units. rewrite Z.max_r by lia. change (2 ^ 0) with 1.
  rewrite Z.mod_1_r, Z.div_1_r. unfold round_up. cbn. lia.
Qed.

Lemma rne_units_upper : rne_units N <= 2 ^ (Z.log2 N + 1).
Proof.
  destruct (Z.log2_spec N HN) as [Hlo Hhi].
  destruct (Z.le_gt_cases (Z.log2 N + 1) 53) as [Hs | Hs].
  - rewrite rne_units_small by exact Hs. replace (Z.succ (Z.log2 N)) with (Z.log2 N + 1) in Hhi by lia. lia.
  - pose proof rne_units_P_pos as HP. pose proof rne_units_between as [_ Hb].
    assert (Hk : k = Z.log2 N + 1 - 53) by (unfold k; lia).
    assert (H2 : 2 ^ (Z.log2 N + 1) = 2 ^ 53 * P).
    { unfold P. rewrite Hk, <- Z.pow_add_r by lia. f_equal. lia. }
    replace (Z.succ (Z.log2 N)) with (Z.log2 N + 1) in Hhi by lia.
    rewrite H2 in *.
    assert (N / P < 2 ^ 53) by (apply Z.div_lt_upper_bound; lia).
    nia.
Qed.

Lemma rne_units_lower : 2 ^ Z.log2 N <= rne_units N.
Proof.
  destruct (Z.log2_spec N HN) as [Hlo Hhi].
  destruct (Z.le_gt_cases (Z.log2 N + 1) 53) as [Hs | Hs].
  - rewrite rne_units_small by exact Hs. lia.
  - pose proof rne_units_P_pos as HP. pose proof rne_units_between as [Hb _].
    assert (Hk : k = Z.log2 N + 1 - 53) by (unfold k; lia).
    assert (H2 : 2 ^ Z.log2 N = 2 ^ 52 * P).
    { unfold P. rewrite Hk, <- Z.pow_add_r by lia. f_equal. lia. }
    rewrite H2 in *.
    assert (2 ^ 52 <= N / P) by (apply Z.div_le_lower_bound; lia).
    nia.
Qed.

End RnePos.

(** Rounding to nearest, ties to even, is monotone. *)
Lemma rne_units_mono (N N' : Z) : 0 < N -> N <= N' -> rne_units N <= rne_units N'.
Proof.
  intros HN Hle.
  assert (HN' : 0 < N') by lia.
  pose proof (Z.log2_le_mono N N' Hle) as Hlog.
  destruct (Z.eq_dec (Z.log2 N) (Z.log2 N')) as [E | E].
  - pose proof (rne_units_P_pos N) as HP.
    unfold rne_units at 2. rewrite <- E.
    unfold rne_units at 1.
    set (P := 2 ^ Z.max (Z.log2 N + 1 - 53) 0) in *.
    pose proof (Z.div_le_mono N N' P HP Hle) as Hq.
    pose proof (Z.div_mod N P ltac:(lia)) as HdN.
    pose proof (Z.div_mod N' P ltac:(lia)) as HdN'.
    pose proof (Z.mod_pos_bound N P HP) as HrN.
    pose proof (Z.mod_pos_bound N' P HP) as HrN'.
    destruct (Z.eq_dec (N / P) (N' / P)) as [Eq | Eq].
    + rewrite <- Eq in *.
      pose proof (round_up_mono P (N mod P) (N' mod P) (N / P) ltac:(lia)). nia.
    + assert (Hup : Z.b2z (round_up P (N mod P) (N / P)) <= 1)
        by (destruct (round_up P (N mod P) (N / P)); cbn; lia).
      assert (Hup' : 0 <= Z.b2z (round_up P (N' mod P) (N' / P)))
        by (destruct (round_up P (N' mod P) (N' / P)); cbn; lia).
      nia.
  - pose proof (rne_units_upper N HN). pose proof (rne_units_lower N' HN').
    assert (2 ^ (Z.log2 N + 1) <= 2 ^ Z.log2 N').
    { apply Z.pow_le_mono_r; [lia |]. lia. }
    lia.
Qed.

Lemma rne_units_0 : rne_units 0 = 0.
Proof. reflexivity. Qed.

Lemma rne_units_nonneg (N : Z) : 0 <= N -> 0 <= rne_units N.
Proof.
  intro HN. destruct (Z.eq_dec N 0) as [-> | Hne]; [now rewrite rne_units_0 |].
  pose proof (rne_units_lower N ltac:(lia)).
  pose proof (pow2_pos (Z.log2 N) (Z.log2_nonneg N)). lia.
Qed.

Lemma units_infinity_pos : 0 < units_infinity.
Proof. apply pow2_pos. lia. Qed.

(** So is the rounding of binary64, overflow included. *)
Lemma round_units_mono (N N' : Z) : N <= N' -> round_units N <= round_units N'.
Proof.
  intro Hle. unfold round_units. pose proof units_infinity_pos.
  destruct (Z.lt_trichotomy N 0) as [Hn | [-> | Hn]];
    destruct (Z.lt_trichotomy N' 0) as [Hn' | [-> | Hn']]; try lia.
  - rewrite !Z.sgn_neg, !Z.abs_neq by lia.
    pose proof (rne_units_mono (- N') (- N) ltac:(lia) ltac:(lia)). lia.
  - rewrite Z.sgn_neg, Z.abs_neq by lia. change (Z.sgn 0) with 0.
    pose proof (rne_units_nonneg (- N) ltac:(lia)). lia.
  - rewrite Z.sgn_neg, Z.sgn_pos, Z.abs_neq, Z.abs_eq by lia.
    pose proof (rne_units_nonneg (- N) ltac:(lia)).
    pose proof (rne_units_nonneg N' ltac:(lia)). lia.
  - rewrite (Z.sgn_pos N'), (Z.abs_eq N') by lia. change (Z.sgn 0) with 0.
    pose proof (rne_units_nonneg N' ltac:(lia)). lia.
  - rewrite !Z.sgn_pos, !Z.abs_eq by lia.
    pose proof (rne_units_mono N N' ltac:(lia) ltac:(lia)). lia.
Qed.

Lemma round_units_bounds (N : Z) : - units_infinity <= round_units N <= units_infinity.
Proof.
  unfold round_units. pose proof units_infinity_pos. pose proof (rne_units_nonneg (Z.abs N) (Z.abs_nonneg N)).
  destruct (Z.sgn_spec N) as [[_ ->] | [[_ ->] | [_ ->]]]; lia.
Qed.

Lemma bounded_facts (m : positive) (e : Z) :
  bounded prec emax m e = true ->
  -1074 <= e <= 971
  /\ Zpos (digits2_pos m) <= 53
  /\ (e = -1074 \/ Zpos (digits2_pos m) = 53).
Proof.
  unfold bounded, canonical_mantissa, fexp.
  change (SpecFloat.emin prec emax) with (-1074). change prec with 53.
  change (emax - 53) with 971.
  rewrite andb_true_iff, Z.eqb_eq, Z.leb_le. lia.
Qed.

(** A valid finite number is below the overflow threshold and is its
    own rounding. *)
Lemma bounded_value (m : positive) (e : Z) :
  bounded prec emax m e = true ->
  0 < Zpos m * 2 ^ (e + 1074) < units_infinity
  /\ rne_units (Zpos m * 2 ^ (e + 1074)) = Zpos m * 2 ^ (e + 1074).
Proof.
  intro Hb. destruct (bounded_facts m e Hb) as (He & Hd & Hn).
  pose proof (digits2_pos_bounds m) as Hm.
  pose proof (pow2_pos (e + 1074) ltac:(lia)) as Hc.
  assert (Hm53 : Zpos m < 2 ^ 53).
  { assert (2 ^ Zpos (digits2_pos m) <= 2 ^ 53) by (apply Z.pow_le_mono_r; lia). lia. }
  split; [split; [lia |] |].
  - assert (2 ^ (e + 1074) <= 2 ^ 2045) by (apply Z.pow_le_mono_r; lia).
    unfold units_infinity. change 2098 with (53 + 2045). rewrite (Z.pow_add_r 2 53 2045) by lia.
    apply Z.lt_le_trans with (2 ^ 53 * 2 ^ (e + 1074)).
    + apply Z.mul_lt_mono_pos_r; lia.
    + apply Z.mul_le_mono_nonneg_l; lia.
  - rewrite (rne_units_char (Zpos m * 2 ^ (e + 1074)) (Zpos m) (2 ^ (e + 1074)) 0);
      try lia.
    + unfold round_up. destruct (Z.leb_spec (2 ^ (e + 1074)) (2 * 0)); [lia |].
      cbn [Z.b2z]. lia.
    + f_equal. rewrite Z.log2_mul_pow2 by lia.
      pose proof (digits2_pos_log2 m). lia.
Qed.

Lemma round_units_pos (N : Z) : 0 < N -> round_units N = Z.min (rne_units N) units_infinity.
Proof. intro. unfold round_units. rewrite Z.sgn_pos, Z.abs_eq by lia. lia. Qed.

Lemma round_units_opp (N : Z) : round_units (- N) = - round_units N.
Proof. unfold round_units. rewrite Z.sgn_opp, Z.abs_opp. lia. Qed.

Lemma round_units_fixpoint (x : spec_float) :
  valid_binary x = true -> SF_finite x = true -> round_units (SF_units x) = SF_units x.
Proof.
  destruct x as [s | s | | s m e]; cbn [valid_binary SF_finite SF_units];
    try discriminate; intros Hv _; [reflexivity |].
  destruct (bounded_value m e Hv) as (Hpos & Hrne).
  destruct s; cbn [cond_Zopp].
  - rewrite round_units_opp, round_units_pos, Hrne by lia. lia.
  - rewrite round_units_pos, Hrne by lia. lia.
Qed.

(** On valid mantissas and exponents the lexicographic comparison of
    [SFcompare] is the comparison of the values. *)
Lemma bounded_compare (m1 m2 : positive) (e1 e2 : Z) :
  bounded prec emax m1 e1 = true -> bounded prec emax m2 e2 = true ->
  (Zpos m1 * 2 ^ (e1 + 1074) ?= Zpos m2 * 2 ^ (e2 + 1074))
  = match e1 ?= e2 with
    | Eq => Pos.compare_cont Eq m1 m2
    | Lt => Lt
    | Gt => Gt
    end.
Proof.
  intros H1 H2.
  assert (Hlt : forall ma mb ea eb,
             bounded prec emax ma ea = true -> bounded prec emax mb eb = true ->
             ea < eb -> Zpos ma * 2 ^ (ea + 1074) < Zpos mb * 2 ^ (eb + 1074)).
  { intros ma mb ea eb Ha Hb Hlt.
    destruct (bounded_facts ma ea Ha) as (Hea & Hda & _).
    destruct (bounded_facts mb eb Hb) as (Heb & _ & Hnb).
    pose proof (digits2_pos_bounds ma) as Hma.
    pose proof (digits2_pos_bounds mb) as Hmb.
    assert (Hdb : Zpos (digits2_pos mb) = 53) by lia. rewrite Hdb in Hmb.
    change (53 - 1) with 52 in Hmb.
    assert (Zpos ma < 2 ^ 53).
    { assert (2 ^ Zpos (digits2_pos ma) <= 2 ^ 53) by (apply Z.pow_le_mono_r; lia). lia. }
    pose proof (pow2_pos (ea + 1074) ltac:(lia)).
    assert (2 ^ (eb + 1074) = 2 ^ (eb - ea) * 2 ^ (ea + 1074)).
    { rewrite <- Z.pow_add_r by lia. f_equal. lia. }
    assert (2 ^ 1 <= 2 ^ (eb - ea)) by (apply Z.pow_le_mono_r; lia).
    change (2 ^ 1) with 2 in *. change (2 ^ 53) with (2 * 2 ^ 52) in *. nia. }
  destruct (Z.compare_spec e1 e2) as [-> | L | L].
  - assert (Hc : 0 < 2 ^ (e2 + 1074))
      by (apply pow2_pos; destruct (bounded_facts _ _ H2); lia).
    change (Pos.compare_cont Eq m1 m2) with (Pos.compare m1 m2).
    destruct (Pos.compare_spec m1 m2) as [-> | L | L].
    + apply Z.compare_refl.
    + apply Z.compare_lt_iff, Z.mul_lt_mono_pos_r; lia.
    + apply Z.compare_gt_iff, Z.mul_lt_mono_pos_r; lia.
  - apply Z.compare_lt_iff. now apply Hlt.
  - apply Z.compare_gt_iff. now apply Hlt.
Qed.

(** Comparing valid numbers other than NaN is comparing their units. *)
Lemma SFcompare_units (x y : spec_float) :
  valid_binary x = true -> valid_binary y = true ->
  SF_ordered x = true -> SF_ordered y = true ->
  SFcompare x y = Some (SF_units x ?= SF_units y).
Proof.
  pose proof units_infinity_pos as Hinf.
  destruct x as [sx | sx | | sx mx ex], y as [sy | sy | | sy my ey];
    cbn [valid_binary SF_ordered]; intros Hx Hy Hnx Hny; try discriminate;
    try (destruct (bounded_value mx ex Hx) as (Hpx & _));
    try (destruct (bounded_value my ey Hy) as (Hpy & _));
    cbn [SFcompare SF_units]; f_equal; symmetry.
  - destruct sy; cbn [cond_Zopp]; [apply Z.compare_gt_iff | apply Z.compare_lt_iff]; lia.
  - destruct sy; cbn [cond_Zopp]; [apply Z.compare_gt_iff | apply Z.compare_lt_iff]; lia.
  - destruct sx; cbn [cond_Zopp]; [apply Z.compare_lt_iff | apply Z.compare_gt_iff]; lia.
  - destruct sx, sy; cbn [cond_Zopp];
      [apply Z.compare_eq_iff | apply Z.compare_lt_iff | apply Z.compare_gt_iff
       | apply Z.compare_eq_iff]; lia.
  - destruct sx, sy; cbn [cond_Zopp];
      [apply Z.compare_lt_iff | apply Z.compare_lt_iff | apply Z.compare_gt_iff
       | apply Z.compare_gt_iff]; lia.
  - destruct sx; cbn [cond_Zopp]; [apply Z.compare_lt_iff | apply Z.compare_gt_iff]; lia.
  - destruct sx, sy; cbn [cond_Zopp];
      [apply Z.compare_gt_iff | apply Z.compare_lt_iff | apply Z.compare_gt_iff
       | apply Z.compare_lt_iff]; lia.
  - destruct sx, sy; cbn [cond_Zopp].
    + rewrite Z.compare_opp, (Z.compare_antisym (Zpos mx * _)),
        (bounded_compare mx my ex ey Hx Hy).
      destruct (ex ?= ey); reflexivity.
    + apply Z.compare_lt_iff. lia.
    + apply Z.compare_gt_iff. lia.
    + apply (bounded_compare mx my ex ey Hx Hy).
Qed.

Lemma shl_align_value (mx : positive) (ex ez : Z) :
  -1074 <= ez <= ex ->
  Zpos (fst (shl_align mx ex ez)) * 2 ^ (ez + 1074) = Zpos mx * 2 ^ (ex + 1074).
Proof.
  intro He. unfold shl_align.
  destruct (ez - ex) as [| p | p] eqn:Hd; cbn [fst]; try lia.
  - replace ez with ex by lia. reflexivity.
  - rewrite Pos_iter_xO, <- Z.mul_assoc, <- Z.pow_add_r by lia.
    do 2 f_equal. lia.
Qed.

Lemma binary_normalize_units (M e : Z) (szero : bool) :
  -1074 <= e ->
  SF_units (binary_normalize prec emax M e szero) = round_units (M * 2 ^ (e + 1074))
  /\ SF_ordered (binary_normalize prec emax M e szero) = true.
Proof.
  intro He. pose proof (pow2_pos (e + 1074) ltac:(lia)) as Hc.
  destruct M as [| m | m]; cbn [binary_normalize].
  - split; reflexivity.
  - destruct (binary_round_units false m e He) as [Hk Hn].
    split.
    + rewrite Hk, round_units_pos by lia. reflexivity.
    + revert Hn. destruct (binary_round prec emax false m e); cbn; congruence.
  - destruct (binary_round_units true m e He) as [Hk Hn].
    split.
    + rewrite Hk. change (Zneg m) with (- Zpos m).
      rewrite Z.mul_opp_l, round_units_opp, round_units_pos by lia. reflexivity.
    + revert Hn. destruct (binary_round prec emax true m e); cbn; congruence.
Qed.

(** The sum and the difference of finite numbers are the rounded sum
    and difference of their units. *)
Lemma SFadd_units (x z : spec_float) :
  valid_binary x = true -> valid_binary z = true ->
  SF_finite x = true -> SF_finite z = true ->
  SF_units (SFadd prec emax x z) = round_units (SF_units x + SF_units z)
  /\ SF_ordered (SFadd prec emax x z) = true.
Proof.
  intros Hx Hz Hfx Hfz.
  destruct x as [sx | sx | | sx mx ex], z as [sz | sz | | sz mz ez];
    try discriminate.
  - split; [| destruct sx, sz; reflexivity]. destruct sx, sz; reflexivity.
  - cbn [SFadd SF_units]. rewrite Z.add_0_l.
    split; [| reflexivity]. symmetry. now apply (round_units_fixpoint (S754_finite sz mz ez)).
  - cbn [SFadd SF_units]. rewrite Z.add_0_r.
    split; [| reflexivity]. symmetry. now apply (round_units_fixpoint (S754_finite sx mx ex)).
  - cbn [valid_binary] in Hx, Hz.
    destruct (bounded_facts mx ex Hx) as (Hex & _).
    destruct (bounded_facts mz ez Hz) as (Hez & _).
    cbn [SFadd SF_units].
    destruct (binary_normalize_units
                (cond_Zopp sx (Zpos (fst (shl_align mx ex (Z.min ex ez))))
                 + cond_Zopp sz (Zpos (fst (shl_align mz ez (Z.min ex ez)))))
                (Z.min ex ez) false ltac:(lia)) as [-> Hn].
    split; [| exact Hn]. f_equal.
    rewrite Z.mul_add_distr_r.
    pose proof (shl_align_value mx ex (Z.min ex ez) ltac:(lia)) as Hvx.
    pose proof (shl_align_value mz ez (Z.min ex ez) ltac:(lia)) as Hvz.
    destruct sx, sz; cbn [cond_Zopp]; lia.
Qed.

Lemma SFsub_units (x z : spec_float) :
  valid_binary x = true -> valid_binary z = true ->
  SF_finite x = true -> SF_finite z = true ->
  SF_units (SFsub prec emax x z) = round_units (SF_units x - SF_units z)
  /\ SF_ordered (SFsub prec emax x z) = true.
Proof.
  intros Hx Hz Hfx Hfz.
  destruct x as [sx | sx | | sx mx ex], z as [sz | sz | | sz mz ez];
    try discriminate.
  - split; [| destruct sx, sz; reflexivity]. destruct sx, sz; reflexivity.
  - cbn [SFsub]. split; [| reflexivity].
    change (SF_units (S754_zero sx)) with 0. rewrite Z.sub_0_l, round_units_opp.
    rewrite (round_units_fixpoint (S754_finite sz mz ez)) by assumption.
    cbn [SF_units]. destruct sz; cbn [negb cond_Zopp]; lia.
  - cbn [SFsub SF_units]. rewrite Z.sub_0_r.
    split; [| reflexivity]. symmetry. now apply (round_units_fixpoint (S754_finite sx mx ex)).
  - cbn [valid_binary] in Hx, Hz.
    destruct (bounded_facts mx ex Hx) as (Hex & _).
    destruct (bounded_facts mz ez Hz) as (Hez & _).
    cbn [SFsub SF_units].
    destruct (binary_normalize_units
                (cond_Zopp sx (Zpos (fst (shl_align mx ex (Z.min ex ez))))
                 - cond_Zopp sz (Zpos (fst (shl_align mz ez (Z.min ex ez)))))
                (Z.min ex ez) false ltac:(lia)) as [-> Hn].
    split; [| exact Hn]. f_equal.
    rewrite Z.mul_sub_distr_r.
    pose proof (shl_align_value mx ex (Z.min ex ez) ltac:(lia)) as Hvx.
    pose proof (shl_align_value mz ez (Z.min ex ez) ltac:(lia)) as Hvz.
    destruct sx, sz; cbn [cond_Zopp]; lia.
Qed.

Lemma SF_units_range (x : spec_float) :
  valid_binary x = true -> SF_ordered x = true ->
  if SF_finite x then - units_infinity < SF_units x < units_infinity
  else SF_units x = units_infinity \/ SF_units x = - units_infinity.
Proof.
  pose proof units_infinity_pos.
  destruct x as [s | s | | s m e]; cbn [valid_binary SF_ordered SF_finite SF_units];
    intros Hv Hn; try discriminate.
  - lia.
  - destruct s; cbn [cond_Zopp]; lia.
  - destruct (bounded_value m e Hv) as (Hpos & _). destruct s; cbn [cond_Zopp]; lia.
Qed.

(** A monotone function within the overflow thresholds stays monotone
    when infinities are let through. *)
Lemma lift_units_mono (f : Z -> Z) (x y : spec_float) :
  (forall a b, a <= b -> f a <= f b) -> (forall a, - units_infinity <= f a <= units_infinity) ->
  valid_binary x = true -> valid_binary y = true ->
  SF_ordered x = true -> SF_ordered y = true ->
  SF_units x <= SF_units y -> lift_units f x <= lift_units f y.
Proof.
  intros Hmono Hbound Hvx Hvy Hnx Hny Hle. unfold lift_units.
  pose proof (SF_units_range x Hvx Hnx) as Hrx. pose proof (SF_units_range y Hvy Hny) as Hry.
  pose proof (Hbound (SF_units x)). pose proof (Hbound (SF_units y)).
  destruct (SF_finite x), (SF_finite y); try lia.
  apply Hmono, Hle.
Qed.

Lemma SFadd_key_l (x z : spec_float) :
  valid_binary x = true -> valid_binary z = true ->
  SF_ordered x = true -> SF_finite z = true ->
  SF_units (SFadd prec emax x z) = lift_units (fun a => round_units (a + SF_units z)) x
  /\ SF_ordered (SFadd prec emax x z) = true.
Proof.
  intros Hx Hz Hnx Hfz. unfold lift_units.
  destruct (SF_finite x) eqn:Hfx; [now apply SFadd_units |].
  destruct x as [sx | sx | | sx mx ex], z as [sz | sz | | sz mz ez];
    try discriminate; split; reflexivity.
Qed.

Lemma SFadd_key_r (x z : spec_float) :
  valid_binary x = true -> valid_binary z = true ->
  SF_ordered x = true -> SF_finite z = true ->
  SF_units (SFadd prec emax z x) = lift_units (fun a => round_units (SF_units z + a)) x
  /\ SF_ordered (SFadd prec emax z x) = true.
Proof.
  intros Hx Hz Hnx Hfz. unfold lift_units.
  destruct (SF_finite x) eqn:Hfx; [now apply SFadd_units |].
  destruct x as [sx | sx | | sx mx ex], z as [sz | sz | | sz mz ez];
    try discriminate; split; reflexivity.
Qed.

Lemma SFsub_key_l (x z : spec_float) :
  valid_binary x = true -> valid_binary z = true ->
  SF_ordered x = true -> SF_finite z = true ->
  SF_units (SFsub prec emax x z) = lift_units (fun a => round_units (a - SF_units z)) x
  /\ SF_ordered (SFsub prec emax x z) = true.
Proof.
  intros Hx Hz Hnx Hfz. unfold lift_units.
  destruct (SF_finite x) eqn:Hfx; [now apply SFsub_units |].
  destruct x as [sx | sx | | sx mx ex], z as [sz | sz | | sz mz ez];
    try discriminate; split; reflexivity.
Qed.

Lemma float_finite_ordered (x : float) : float_finite x = true -> float_ordered x = true.
Proof. unfold float_finite, float_ordered. destruct (Prim2SF x); easy. Qed.

(** The comparisons of binary64 on numbers other than NaN. *)
Lemma leb_float_units (x y : float) :
  float_ordered x = true -> float_ordered y = true ->
  PrimFloat.leb x y = (float_units x <=? float_units y).
Proof.
  intros Hx Hy. rewrite leb_spec. unfold SFleb, float_units.
  rewrite (SFcompare_units _ _ (Prim2SF_valid x) (Prim2SF_valid y) Hx Hy).
  unfold Z.leb. destruct (SF_units (Prim2SF x) ?= SF_units (Prim2SF y)); reflexivity.
Qed.

Lemma ltb_float_units (x y : float) :
  float_ordered x = true -> float_ordered y = true ->
  PrimFloat.ltb x y = (float_units x <? float_units y).
Proof.
  intros Hx Hy. rewrite ltb_spec. unfold SFltb, float_units.
  rewrite (SFcompare_units _ _ (Prim2SF_valid x) (Prim2SF_valid y) Hx Hy).
  unfold Z.ltb. destruct (SF_units (Prim2SF x) ?= SF_units (Prim2SF y)); reflexivity.
Qed.

Lemma leb_ordered (x y : float) :
  PrimFloat.leb x y = true -> float_ordered x = true /\ float_ordered y = true.
Proof.
  rewrite leb_spec. unfold SFleb, float_ordered.
  destruct (Prim2SF x), (Prim2SF y); cbn; intuition congruence.
Qed.

Lemma round_units_add_mono_l (c a b : Z) : a <= b -> round_units (a + c) <= round_units (b + c).
Proof. intro. apply round_units_mono. lia. Qed.

Lemma round_units_add_mono_r (c a b : Z) : a <= b -> round_units (c + a) <= round_units (c + b).
Proof. intro. apply round_units_mono. lia. Qed.

Lemma round_units_sub_mono_l (c a b : Z) : a <= b -> round_units (a - c) <= round_units (b - c).
Proof. intro. apply round_units_mono. lia. Qed.

Lemma float_add_ordered_l (x z : float) :
  float_ordered x = true -> float_finite z = true ->
  float_ordered (x + z) = true.
Proof.
  intros Hx Hz. unfold float_ordered. rewrite add_spec.
  now apply (SFadd_key_l _ _ (Prim2SF_valid x) (Prim2SF_valid z)).
Qed.

Lemma float_add_ordered_r (x z : float) :
  float_ordered x = true -> float_finite z = true ->
  float_ordered (z + x) = true.
Proof.
  intros Hx Hz. unfold float_ordered. rewrite add_spec.
  now apply (SFadd_key_r _ _ (Prim2SF_valid x) (Prim2SF_valid z)).
Qed.

Lemma float_sub_ordered_l (x z : float) :
  float_ordered x = true -> float_finite z = true ->
  float_ordered (x - z) = true.
Proof.
  intros Hx Hz. unfold float_ordered. rewrite sub_spec.
  now apply (SFsub_key_l _ _ (Prim2SF_valid x) (Prim2SF_valid z)).
Qed.

(** Adding or subtracting a finite number is monotone. *)
Lemma float_add_mono_l (x y z : float) :
  float_finite z = true -> PrimFloat.leb x y = true ->
  PrimFloat.leb (x + z) (y + z) = true.
Proof.
  intros Hz Hle. destruct (leb_ordered x y Hle) as [Hx Hy].
  rewrite leb_float_units in Hle by assumption.
  rewrite leb_float_units by now apply float_add_ordered_l.
  apply Z.leb_le in Hle. apply Z.leb_le. unfold float_units in *. rewrite !add_spec. unfold SF64add.
  rewrite (proj1 (SFadd_key_l _ _ (Prim2SF_valid x) (Prim2SF_valid z) Hx Hz)).
  rewrite (proj1 (SFadd_key_l _ _ (Prim2SF_valid y) (Prim2SF_valid z) Hy Hz)).
  apply lift_units_mono; try assumption; try apply Prim2SF_valid.
  - intros a b. apply round_units_add_mono_l.
  - intro a. apply round_units_bounds.
Qed.

Lemma float_add_mono_r (x y z : float) :
  float_finite z = true -> PrimFloat.leb x y = true ->
  PrimFloat.leb (z + x) (z + y) = true.
Proof.
  intros Hz Hle. destruct (leb_ordered x y Hle) as [Hx Hy].
  rewrite leb_float_units in Hle by assumption.
  rewrite leb_float_units by now apply float_add_ordered_r.
  apply Z.leb_le in Hle. apply Z.leb_le. unfold float_units in *. rewrite !add_spec. unfold SF64add.
  rewrite (proj1 (SFadd_key_r _ _ (Prim2SF_valid x) (Prim2SF_valid z) Hx Hz)).
  rewrite (proj1 (SFadd_key_r _ _ (Prim2SF_valid y) (Prim2SF_valid z) Hy Hz)).
  apply lift_units_mono; try assumption; try apply Prim2SF_valid.
  - intros a b. apply round_units_add_mono_r.
  - intro a. apply round_units_bounds.
Qed.

Lemma float_sub_mono_l (x y z : float) :
  float_finite z = true -> PrimFloat.leb x y = true ->
  PrimFloat.leb (x - z) (y - z) = true.
Proof.
  intros Hz Hle. destruct (leb_ordered x y Hle) as [Hx Hy].
  rewrite leb_float_units in Hle by assumption.
  rewrite leb_float_units by now apply float_sub_ordered_l.
  apply Z.leb_le in Hle. apply Z.leb_le. unfold float_units in *. rewrite !sub_spec. unfold SF64sub.
  rewrite (proj1 (SFsub_key_l _ _ (Prim2SF_valid x) (Prim2SF_valid z) Hx Hz)).
  rewrite (proj1 (SFsub_key_l _ _ (Prim2SF_valid y) (Prim2SF_valid z) Hy Hz)).
  apply lift_units_mono; try assumption; try apply Prim2SF_valid.
  - intros a b. apply round_units_sub_mono_l.
  - intro a. apply round_units_bounds.
Qed.

Lemma ltb_ordered (x y : float) :
  PrimFloat.ltb x y = true -> float_ordered x = true /\ float_ordered y = true.
Proof.
  rewrite ltb_spec. unfold SFltb, float_ordered.
  destruct (Prim2SF x), (Prim2SF y); cbn; intuition congruence.
Qed.

Lemma float_leb_refl (x : float) :
  float_ordered x = true -> PrimFloat.leb x x = true.
Proof.
  intro Hx. rewrite leb_float_units by assumption. apply Z.leb_refl.
Qed.

Lemma float_leb_trans (x y z : float) :
  PrimFloat.leb x y = true -> PrimFloat.leb y z = true ->
  PrimFloat.leb x z = true.
Proof.
  intros Hxy Hyz.
  destruct (leb_ordered x y Hxy) as [Hx Hy].
  destruct (leb_ordered y z Hyz) as [_ Hz].
  rewrite leb_float_units in * by assumption.
  apply Z.leb_le in Hxy, Hyz. apply Z.leb_le. lia.
Qed.

Lemma float_leb_total (x y : float) :
  float_ordered x = true -> float_ordered y = true ->
  PrimFloat.leb x y = false -> PrimFloat.leb y x = true.
Proof.
  intros Hx Hy. rewrite !leb_float_units by assumption.
  rewrite Z.leb_gt, Z.leb_le. lia.
Qed.

Lemma float_ltb_leb (x y : float) :
  float_ordered x = true -> float_ordered y = true ->
  PrimFloat.ltb x y = negb (PrimFloat.leb y x).
Proof.
  intros Hx Hy. rewrite ltb_float_units, leb_float_units by assumption.
  apply Z.ltb_antisym.
Qed.

End Binary64.

(** Binary64 with its finite numbers and its numbers other than NaN. *)
#[export] Instance DoubleOrderedArith_float : DoubleOrderedArith float := {|
  dfinite := float_finite;
  dordered := float_ordered;
  dfinite_ordered := float_finite_ordered;
  dle_ordered := leb_ordered;
  dlt_ordered := ltb_ordered;
  dle_refl := float_leb_refl;
  dle_trans := float_leb_trans;
  dle_total := float_leb_total;
  dlt_dle := float_ltb_leb;
  dadd_mono_l := fun a b c => float_add_mono_l a b c;
  dadd_mono_r := fun a b c => float_add_mono_r a b c;
  dsub_mono_l := fun a b c => float_sub_mono_l a b c
|}.

(** ** Properties of the entry filters *)

Section FilterProperties.

Context {D : Type} `{Double D}.

Local Open Scope double_scope.

Variable FLAGS_static_decision_nudge_l_buffer : D.

Local Abbreviation backup_filter :=
  (SidePassBackup_has_blocking_obstacle FLAGS_static_decision_nudge_l_buffer).

(** The loop of [SidePassBackup] finds a blocking obstacle exactly when
    some item passes the guards and is a lateral blocker. *)
Lemma SidePassBackup_has_blocking_obstacle_existsb
  (config : ScenarioConfig D) (reference_line : ReferenceLine D)
  (adc : SLBoundary D) (items : list (Obstacle D)) :
  backup_filter config reference_line adc items
  = existsb (fun o => negb (filtered_out config adc o)
                      && is_lateral_blocker FLAGS_static_decision_nudge_l_buffer
                           reference_line o) items.
Proof.
  induction items as [| o rest IH]; [reflexivity |].
  cbn [SidePassBackup_has_blocking_obstacle existsb].
  rewrite IH.
  unfold filtered_out, is_virtual_or_moving, faster_than_cutoff, behind_ego,
    outside_window, is_lateral_blocker.
  destruct (lane_width_at reference_line (start_s (PerceptionSLBoundary o)))
    as [lane_left_width lane_right_width].
  cbn [fst snd].
  destruct (IsVirtual o), (IsStatic o); cbn [orb negb andb]; try reflexivity.
  destruct (speed o >? block_obstacle_min_speed config);
    cbn [orb negb andb]; try reflexivity.
  destruct (start_s (PerceptionSLBoundary o) <=? end_s adc);
    cbn [orb negb andb]; try reflexivity.
  destruct (start_s (PerceptionSLBoundary o) >? end_s adc + kAdcDistanceThreshold);
    cbn [orb negb andb]; try reflexivity.
  destruct (driving_width FLAGS_static_decision_nudge_l_buffer lane_left_width
              lane_right_width (PerceptionSLBoundary o) >? kLBufferThreshold);
    reflexivity.
Qed.

Lemma SidePassApproachObstacle_blocking_step_orb
  (config : ScenarioConfig D) (adc : SLBoundary D) (flag : bool)
  (o : Obstacle D) :
  SidePassApproachObstacle_blocking_step config adc flag o
  = flag || (negb (filtered_out config adc o) && overlaps_corridor o).
Proof.
  unfold SidePassApproachObstacle_blocking_step, filtered_out,
    is_virtual_or_moving, faster_than_cutoff, behind_ego, outside_window,
    overlaps_corridor.
  destruct (IsVirtual o), (IsStatic o); cbn [orb negb andb];
    try (now rewrite orb_false_r).
  destruct (speed o >? block_obstacle_min_speed config);
    cbn [orb negb andb]; try (now rewrite orb_false_r).
  destruct (start_s (PerceptionSLBoundary o) <=? end_s adc);
    cbn [orb negb andb]; try (now rewrite orb_false_r).
  destruct (start_s (PerceptionSLBoundary o) >? end_s adc + kAdcDistanceThreshold);
    cbn [orb negb andb]; try (now rewrite orb_false_r).
  destruct (start_l (PerceptionSLBoundary o) >? lit_1),
    (end_l (PerceptionSLBoundary o) <? lit_neg_1);
    cbn [orb negb andb]; now rewrite ?orb_false_r, ?orb_true_r.
Qed.

Lemma fold_SidePassApproachObstacle_blocking_step
  (config : ScenarioConfig D) (adc : SLBoundary D)
  (items : list (Obstacle D)) (flag : bool) :
  fold_left (SidePassApproachObstacle_blocking_step config adc) items flag
  = flag || existsb (fun o => negb (filtered_out config adc o)
                              && overlaps_corridor o) items.
Proof.
  revert flag.
  induction items as [| o rest IH]; intro flag; cbn [fold_left existsb].
  - now rewrite orb_false_r.
  - now rewrite IH, SidePassApproachObstacle_blocking_step_orb, orb_assoc.
Qed.

(** The loop of [SidePassApproachObstacle] finds a blocking obstacle
    exactly when some item passes the guards and overlaps the corridor. *)
Lemma SidePassApproachObstacle_has_blocking_obstacle_existsb
  (config : ScenarioConfig D) (adc : SLBoundary D)
  (items : list (Obstacle D)) :
  SidePassApproachObstacle_has_blocking_obstacle config adc items
  = existsb (fun o => negb (filtered_out config adc o) && overlaps_corridor o)
      items.
Proof.
  unfold SidePassApproachObstacle_has_blocking_obstacle.
  now rewrite fold_SidePassApproachObstacle_blocking_step.
Qed.

Lemma existsb_pointwise {A : Type} (p q : A -> bool) (l : list A) :
  (forall a, p a = q a) -> existsb p l = existsb q l.
Proof.
  intro Hpq. induction l as [| a l IH]; [reflexivity |].
  cbn [existsb]. now rewrite Hpq, IH.
Qed.

Lemma existsb_skip_rejected {A : Type} (p : A -> bool) (pre post : list A)
  (a : A) :
  p a = false -> existsb p (pre ++ a :: post) = existsb p (pre ++ post).
Proof.
  intro Ha. rewrite !existsb_app. cbn [existsb]. now rewrite Ha.
Qed.

(** C8.  An obstacle that is virtual, or not static, or faster than the
    configured speed cutoff, or behind the ego (start station not past the
    ego's end station), or outside the 15 m forward window is never
    classified as blocking, whatever its lateral extent: on its own
    neither the BACKUP filter nor the APPROACH_OBSTACLE filter reports a
    blocking obstacle, and anywhere in an obstacle list it leaves the
    result of both filters what it is without it. *)
Theorem filtered_out_obstacle_never_blocking
  (config : ScenarioConfig D) (reference_line : ReferenceLine D)
  (adc : SLBoundary D) (pre post : list (Obstacle D)) (o : Obstacle D) :
  IsVirtual o = true \/ IsStatic o = false
  \/ faster_than_cutoff config o = true
  \/ behind_ego adc o = true
  \/ outside_window adc o = true ->
  (backup_filter config reference_line adc [o] = false
   /\ backup_filter config reference_line adc (pre ++ o :: post)
      = backup_filter config reference_line adc (pre ++ post))
  /\ (SidePassApproachObstacle_has_blocking_obstacle config adc [o] = false
      /\ SidePassApproachObstacle_has_blocking_obstacle config adc
           (pre ++ o :: post)
         = SidePassApproachObstacle_has_blocking_obstacle config adc
             (pre ++ post)).
Proof.
  intro Hout.
  assert (Hf : filtered_out config adc o = true).
  { unfold filtered_out, is_virtual_or_moving.
    destruct Hout as [-> | [-> | [-> | [-> | ->]]]];
      now rewrite ?orb_true_r. }
  rewrite !SidePassBackup_has_blocking_obstacle_existsb,
    !SidePassApproachObstacle_has_blocking_obstacle_existsb.
  repeat split.
  - cbn [existsb]. now rewrite Hf.
  - apply existsb_skip_rejected. now rewrite Hf.
  - cbn [existsb]. now rewrite Hf.
  - apply existsb_skip_rejected. now rewrite Hf.
Qed.

(** C4, as the code has it.  For an obstacle that passes the guards of the
    BACKUP filter (not virtual, static, speed not above the cutoff, start
    station past the ego's end station and within the 15 m window), the
    filter stops with a blocking obstacle when the driving width
    [min(left + right, max(left - end_l, right + start_l)) - nudge] does
    not exceed the 0.3 m threshold, and goes on to the remaining
    obstacles when it exceeds it. *)
Theorem SidePassBackup_lateral_blocker
  (config : ScenarioConfig D) (reference_line : ReferenceLine D)
  (adc : SLBoundary D) (o : Obstacle D) (rest : list (Obstacle D))
  (lane_left_width lane_right_width : D) :
  IsVirtual o = false -> IsStatic o = true ->
  faster_than_cutoff config o = false ->
  behind_ego adc o = false ->
  outside_window adc o = false ->
  lane_width_at reference_line (start_s (PerceptionSLBoundary o))
  = (lane_left_width, lane_right_width) ->
  backup_filter config reference_line adc (o :: rest)
  = if std_min (lane_left_width + lane_right_width)
         (std_max (lane_left_width - end_l (PerceptionSLBoundary o))
            (lane_right_width + start_l (PerceptionSLBoundary o)))
       - FLAGS_static_decision_nudge_l_buffer >? lit_0_3
    then backup_filter config reference_line adc rest
    else true.
Proof.
  unfold faster_than_cutoff, behind_ego, outside_window.
  intros Hvirtual Hstatic Hspeed Hbehind Hfar Hwidth.
  cbn [SidePassBackup_has_blocking_obstacle].
  rewrite Hvirtual, Hstatic, Hspeed, Hbehind, Hfar, Hwidth. cbn [orb negb].
  reflexivity.
Qed.

End FilterProperties.

(** ** Monotonicity of the driving width *)

Section DrivingWidth.

Context {D : Type} `{DoubleOrderedArith D}.

Local Open Scope double_scope.

Variable FLAGS_static_decision_nudge_l_buffer : D.

Local Abbreviation backup_filter :=
  (SidePassBackup_has_blocking_obstacle FLAGS_static_decision_nudge_l_buffer).

Lemma dlt_true_dle (a b : D) : (a <? b) = true -> (a <=? b) = true.
Proof.
  intro Hlt. destruct (dlt_ordered _ _ Hlt) as [Ha Hb].
  rewrite dlt_dle, negb_true_iff in Hlt by assumption.
  now apply dle_total.
Qed.

Lemma dlt_false_dle (a b : D) :
  dordered a = true -> dordered b = true ->
  (a <? b) = false -> (b <=? a) = true.
Proof.
  intros Ha Hb. rewrite dlt_dle, negb_false_iff by assumption. trivial.
Qed.

Lemma std_max_mono (a a' b b' : D) :
  (a' <=? a) = true -> (b' <=? b) = true ->
  (std_max a' b' <=? std_max a b) = true.
Proof.
  intros Ha Hb.
  destruct (dle_ordered _ _ Ha) as [Hoa' Hoa].
  destruct (dle_ordered _ _ Hb) as [Hob' Hob].
  unfold std_max.
  destruct (a' <? b') eqn:E', (a <? b) eqn:E; trivial.
  - apply dle_trans with b; [exact Hb | now apply dlt_false_dle].
  - apply dle_trans with a; [exact Ha | now apply dlt_true_dle].
Qed.

Lemma std_min_mono (a a' b b' : D) :
  (a' <=? a) = true -> (b' <=? b) = true ->
  (std_min a' b' <=? std_min a b) = true.
Proof.
  intros Ha Hb.
  destruct (dle_ordered _ _ Ha) as [Hoa' Hoa].
  destruct (dle_ordered _ _ Hb) as [Hob' Hob].
  unfold std_min.
  destruct (b' <? a') eqn:E', (b <? a) eqn:E; trivial.
  - apply dle_trans with a'; [now apply dlt_true_dle | exact Ha].
  - apply dle_trans with b'; [now apply dlt_false_dle | exact Hb].
Qed.

Hypothesis nudge_finite : dfinite FLAGS_static_decision_nudge_l_buffer = true.

Lemma driving_width_mono (sl : SLBoundary D) (l l' r r' : D) :
  dfinite (start_l sl) = true -> dfinite (end_l sl) = true ->
  dfinite l = true -> dfinite r' = true ->
  (l' <=? l) = true -> (r' <=? r) = true ->
  (driving_width FLAGS_static_decision_nudge_l_buffer l' r' sl
   <=? driving_width FLAGS_static_decision_nudge_l_buffer l r sl) = true.
Proof.
  intros Hsl Hel Hfl Hfr' Hl Hr. unfold driving_width.
  apply dsub_mono_l; [exact nudge_finite |].
  apply std_min_mono.
  - apply dle_trans with (l + r');
      [now apply dadd_mono_l | now apply dadd_mono_r].
  - apply std_max_mono; [now apply dsub_mono_l | now apply dadd_mono_l].
Qed.

Lemma is_lateral_blocker_narrower (wide narrow : ReferenceLine D)
  (o : Obstacle D) :
  dfinite (start_l (PerceptionSLBoundary o)) = true ->
  dfinite (end_l (PerceptionSLBoundary o)) = true ->
  no_wider narrow wide ->
  is_lateral_blocker FLAGS_static_decision_nudge_l_buffer wide o = true ->
  is_lateral_blocker FLAGS_static_decision_nudge_l_buffer narrow o = true.
Proof.
  intros Hsl Hel Hnarrow. unfold is_lateral_blocker.
  rewrite !negb_true_iff. intro Hwide.
  destruct (Hnarrow (start_s (PerceptionSLBoundary o)))
    as ((Hn1 & Hn2) & (Hw1 & Hw2) & Hle1 & Hle2).
  pose proof (driving_width_mono (PerceptionSLBoundary o) _ _ _ _
                Hsl Hel Hw1 Hn2 Hle1 Hle2) as Hmono.
  destruct (dle_ordered _ _ Hmono) as [Hon How].
  apply not_true_is_false. intro Habs.
  destruct (dlt_ordered _ _ Habs) as [Hot _].
  apply dlt_false_dle in Hwide; [| exact Hot | exact How].
  rewrite dlt_dle, negb_true_iff in Habs by assumption.
  now rewrite (dle_trans _ _ _ Hmono Hwide) in Habs.
Qed.

(** C9.  With the obstacle's lateral extent and the nudge buffer fixed
    (and finite, like the lane widths), the driving width
    [min(left + right, max(left - end_l, right + start_l)) - nudge] is
    monotone non-decreasing in the left and in the right lane width; hence
    an obstacle list in which the BACKUP filter finds a blocking obstacle
    still has one when the lane is no wider at any station. *)
Theorem driving_width_monotone_in_lane_width :
  (forall (sl : SLBoundary D) (l l' r r' : D),
     dfinite (start_l sl) = true -> dfinite (end_l sl) = true ->
     dfinite l = true -> dfinite l' = true ->
     dfinite r = true -> dfinite r' = true ->
     (l' <=? l) = true -> (r' <=? r) = true ->
     (std_min (l' + r') (std_max (l' - end_l sl) (r' + start_l sl))
      - FLAGS_static_decision_nudge_l_buffer
      <=? driving_width FLAGS_static_decision_nudge_l_buffer l r sl) = true)
  /\ (forall (config : ScenarioConfig D) (adc : SLBoundary D)
        (wide narrow : ReferenceLine D) (items : list (Obstacle D)),
       (forall o, In o items ->
                  dfinite (start_l (PerceptionSLBoundary o)) = true
                  /\ dfinite (end_l (PerceptionSLBoundary o)) = true) ->
       no_wider narrow wide ->
       backup_filter config wide adc items = true ->
       backup_filter config narrow adc items = true).
Proof.
  split.
  - intros sl l l' r r' Hsl Hel Hfl _ _ Hfr' Hl Hr.
    now apply (driving_width_mono sl).
  - intros config adc wide narrow items Hitems Hnarrow.
    rewrite !SidePassBackup_has_blocking_obstacle_existsb, !existsb_exists.
    intros [o [Hin Ho]]. exists o. split; [exact Hin |].
    apply andb_true_iff in Ho. destruct Ho as [Hguard Hblock].
    apply andb_true_iff. split; [exact Hguard |].
    destruct (Hitems o Hin) as [Hsl Hel].
    now apply is_lateral_blocker_narrower with wide.
Qed.

End DrivingWidth.

(** ** Properties of the stages *)

Section StageProperties.

Context {D PathData : Type} `{Double D} `{PathDataOps D PathData}.

Local Open Scope double_scope.

Variable PlanningOnReferenceLine :
  TrajectoryPoint D -> Frame D PathData -> bool * Frame D PathData.

Variable FLAGS_static_decision_nudge_l_buffer : D.

Local Abbreviation Backup_Process :=
  (SidePassBackup_Process PlanningOnReferenceLine
     FLAGS_static_decision_nudge_l_buffer).
Local Abbreviation ApproachObstacle_Process :=
  (SidePassApproachObstacle_Process PlanningOnReferenceLine).
Local Abbreviation GeneratePath_Process :=
  (SidePassGeneratePath_Process PlanningOnReferenceLine).
Local Abbreviation DetectSafety_Process :=
  (SidePassDetectSafety_Process PlanningOnReferenceLine).
Local Abbreviation PassObstacle_Process :=
  (SidePassPassObstacle_Process PlanningOnReferenceLine).

(** C10.  When the entry filter of BACKUP, respectively of
    APPROACH_OBSTACLE, finds no blocking obstacle, the stage returns
    FINISHED with directive NO_STAGE and leaves the frame (working path and
    debug sink included) and the context (the stored path included) as
    they were; the planner has no part in the result, which is the same
    under any other planner. *)
Theorem no_blocking_obstacle_leaves_scene_untouched
  (planning_start_point : TrajectoryPoint D) (st : Stage D PathData) :
  (Backup_entry_filter FLAGS_static_decision_nudge_l_buffer st = false ->
   Backup_Process planning_start_point st
   = (FINISHED, set_next_stage_ NO_STAGE st)
   /\ frame (snd (Backup_Process planning_start_point st)) = frame st
   /\ GetContext (snd (Backup_Process planning_start_point st)) = GetContext st
   /\ forall other_planner,
        SidePassBackup_Process other_planner
          FLAGS_static_decision_nudge_l_buffer planning_start_point st
        = Backup_Process planning_start_point st)
  /\ (ApproachObstacle_entry_filter st = false ->
      ApproachObstacle_Process planning_start_point st
      = (FINISHED, set_next_stage_ NO_STAGE st)
      /\ frame (snd (ApproachObstacle_Process planning_start_point st))
         = frame st
      /\ GetContext (snd (ApproachObstacle_Process planning_start_point st))
         = GetContext st
      /\ forall other_planner,
           SidePassApproachObstacle_Process other_planner
             planning_start_point st
           = ApproachObstacle_Process planning_start_point st).
Proof.
  unfold Backup_entry_filter, ApproachObstacle_entry_filter.
  split; intro Hfilter.
  - unfold SidePassBackup_Process. rewrite Hfilter. cbn.
    repeat split; reflexivity.
  - unfold SidePassApproachObstacle_Process. rewrite Hfilter. cbn.
    repeat split; reflexivity.
Qed.

(** C5.  In APPROACH_OBSTACLE, once a blocking obstacle is found, the
    replan succeeds and the nearest-ahead-on-road distance is not
    negative, the stage returns FINISHED with directive GENERATE_PATH
    exactly when the ego speed is strictly below the approach-stop speed
    and the distance strictly exceeds the minimum stop distance, and
    RUNNING otherwise. *)
Theorem SidePassApproachObstacle_stop_condition
  (planning_start_point : TrajectoryPoint D) (st : Stage D PathData)
  (frame' : Frame D PathData) :
  ApproachObstacle_entry_filter st = true ->
  PlanningOnReferenceLine planning_start_point (frame st) = (true, frame') ->
  (nearest_ahead_on_road frame' <? lit_0) = false ->
  ApproachObstacle_Process planning_start_point st
  = if (vehicle_state_linear_velocity frame'
        <? approach_obstacle_max_stop_speed (scenario_config_ (GetContext st)))
       && (nearest_ahead_on_road frame'
           >? approach_obstacle_min_stop_distance
                (scenario_config_ (GetContext st)))
    then (FINISHED, set_next_stage_ SIDE_PASS_GENERATE_PATH (set_frame frame' st))
    else (RUNNING, set_frame frame' st).
Proof.
  unfold ApproachObstacle_entry_filter, nearest_ahead_on_road.
  intros Hfilter Hplan Hdistance.
  unfold SidePassApproachObstacle_Process.
  rewrite Hfilter, Hplan. cbn. rewrite Hdistance. reflexivity.
Qed.

Lemma substr_is_prefix (id : string) :
  String.eqb (String.substring 0 3 id) "SP_" = String.prefix "SP_" id.
Proof.
  apply eq_iff_eq_true.
  rewrite String.eqb_eq, <- (prefix_correct "SP_" id). reflexivity.
Qed.

Lemma SidePassDetectSafety_is_safe_existsb (adc_front_edge_s : D)
  (items : list (Obstacle D)) :
  SidePassDetectSafety_is_safe adc_front_edge_s items
  = negb (existsb (is_unsafe_marker adc_front_edge_s) items).
Proof.
  induction items as [| o rest IH]; [reflexivity |].
  cbn [SidePassDetectSafety_is_safe existsb].
  destruct (is_unsafe_marker adc_front_edge_s o); [reflexivity | exact IH].
Qed.

(** C7.  In DETECT_SAFETY, after a successful hand-off (update and trim
    of the stored path) and a successful replan, the path is found unsafe
    exactly when some obstacle of the re-planned scene is virtual, has an
    identifier that begins with "SP_" and starts at or beyond the ego's
    front edge ([start_s >= end_s] of the ego); the stage returns RUNNING
    when there is such a marker and FINISHED with directive PASS_OBSTACLE
    when there is none. *)
Theorem SidePassDetectSafety_unsafe_marker
  (planning_start_point : TrajectoryPoint D) (st : Stage D PathData)
  (updated trimmed : PathData) (frame' : Frame D PathData) :
  UpdateFrenetFramePath (reference_line (front (frame st)))
    (path_data_ (GetContext st)) = (true, updated) ->
  LeftTrimWithRefS (frenet_s (adc_frenet_frame_point (frame st)))
    (frenet_l (adc_frenet_frame_point (frame st))) updated = (true, trimmed) ->
  PlanningOnReferenceLine planning_start_point (install_path trimmed (frame st))
  = (true, frame') ->
  SidePassDetectSafety_is_safe (end_s (AdcSlBoundary (front frame')))
    (path_decision (front frame'))
  = negb (has_unsafe_marker frame')
  /\ DetectSafety_Process planning_start_point st
     = if has_unsafe_marker frame'
       then (RUNNING, set_frame frame' (set_path_data_ trimmed st))
       else (FINISHED,
             set_next_stage_ SIDE_PASS_PASS_OBSTACLE
               (set_frame frame' (set_path_data_ trimmed st))).
Proof.
  unfold adc_frenet_frame_point, install_path.
  intros Hupdate Htrim Hplan.
  assert (Hsafe : SidePassDetectSafety_is_safe
                    (end_s (AdcSlBoundary (front frame')))
                    (path_decision (front frame'))
                  = negb (has_unsafe_marker frame')).
  { rewrite SidePassDetectSafety_is_safe_existsb. f_equal.
    apply existsb_pointwise. intro o.
    unfold is_unsafe_marker. now rewrite substr_is_prefix. }
  split; [exact Hsafe |].
  unfold SidePassDetectSafety_Process.
  rewrite Hupdate. cbn. rewrite Htrim. cbn. rewrite Hplan. cbn.
  rewrite Hsafe. destruct (has_unsafe_marker frame'); reflexivity.
Qed.

(** C3.  In PASS_OBSTACLE, after a successful hand-off and replan: when
    the conversion of the path's end point to station and lateral offset
    fails, the stage returns ERROR; otherwise it returns FINISHED with
    directive NO_STAGE exactly when the ego's end station exceeds the
    station of the path's end point minus the exit margin, or the ego
    speed is below the approach-stop speed, and RUNNING in all other
    cases. *)
Theorem SidePassPassObstacle_exit_condition
  (planning_start_point : TrajectoryPoint D) (st : Stage D PathData)
  (updated trimmed : PathData) (frame' : Frame D PathData) :
  UpdateFrenetFramePath (reference_line (front (frame st)))
    (path_data_ (GetContext st)) = (true, updated) ->
  LeftTrimWithRefS (frenet_s (adc_frenet_frame_point (frame st)))
    (frenet_l (adc_frenet_frame_point (frame st))) updated = (true, trimmed) ->
  PlanningOnReferenceLine planning_start_point (install_path trimmed (frame st))
  = (true, frame') ->
  PassObstacle_Process planning_start_point st
  = match XYToSL (reference_line (front frame'))
            {| vec_x := pp_x (EndPoint (path_data (front frame')));
               vec_y := pp_y (EndPoint (path_data (front frame'))) |} with
    | None => (ERROR, set_frame frame' (set_path_data_ trimmed st))
    | Some path_end =>
      if (end_s (AdcSlBoundary (front frame'))
          >? sl_s path_end
             - side_pass_exit_distance (scenario_config_ (GetContext st)))
         || (vehicle_state_linear_velocity frame'
             <? approach_obstacle_max_stop_speed
                  (scenario_config_ (GetContext st)))
      then (FINISHED,
            set_next_stage_ NO_STAGE
              (set_frame frame' (set_path_data_ trimmed st)))
      else (RUNNING, set_frame frame' (set_path_data_ trimmed st))
    end.
Proof.
  unfold adc_frenet_frame_point, install_path.
  intros Hupdate Htrim Hplan.
  unfold SidePassPassObstacle_Process.
  rewrite Hupdate. cbn. rewrite Htrim. cbn. rewrite Hplan. cbn.
  destruct (XYToSL _ _) as [path_end |]; [| reflexivity].
  destruct (_ || _); reflexivity.
Qed.

(** C2, as the code has it.  In GENERATE_PATH: when the replan fails the
    stage returns FINISHED with directive BACKUP (never ERROR) and leaves
    the stored path as it was; when the replan succeeds the frame's new
    path is stored in the context, and the stage returns FINISHED with
    directive DETECT_SAFETY when the trajectory has at least one point and
    RUNNING when it has none. *)
Theorem SidePassGeneratePath_outcome
  (planning_start_point : TrajectoryPoint D) (st : Stage D PathData)
  (plan_ok : bool) (frame' : Frame D PathData) :
  PlanningOnReferenceLine planning_start_point (frame st) = (plan_ok, frame') ->
  (plan_ok = false ->
   GeneratePath_Process planning_start_point st
   = (FINISHED, set_next_stage_ SIDE_PASS_BACKUP (set_frame frame' st))
   /\ path_data_ (GetContext (snd (GeneratePath_Process planning_start_point st)))
      = path_data_ (GetContext st))
  /\ (plan_ok = true ->
      path_data_ (GetContext (snd (GeneratePath_Process planning_start_point st)))
      = path_data (front frame')
      /\ ((1 <= List.length (trajectory (front frame')))%nat ->
          GeneratePath_Process planning_start_point st
          = (FINISHED,
             set_next_stage_ SIDE_PASS_DETECT_SAFETY
               (set_path_data_ (path_data (front frame')) (set_frame frame' st))))
      /\ (List.length (trajectory (front frame')) = 0%nat ->
          GeneratePath_Process planning_start_point st
          = (RUNNING,
             set_path_data_ (path_data (front frame')) (set_frame frame' st)))).
Proof.
  intro Hplan. unfold SidePassGeneratePath_Process. rewrite Hplan.
  split; intros ->; cbn.
  - split; reflexivity.
  - destruct (trajectory (front frame')) as [| p ps]; cbn.
    + repeat split; try reflexivity. lia.
    + repeat split; try reflexivity. discriminate.
Qed.

(** Case analysis on every call and test of a [Process] body. *)
Ltac run_stage :=
  repeat match goal with
         | |- context [PlanningOnReferenceLine ?p ?f] =>
           destruct (PlanningOnReferenceLine p f) as [[] ?]; cbn
         | |- context [UpdateFrenetFramePath ?r ?pd] =>
           destruct (UpdateFrenetFramePath r pd) as [[] ?]; cbn
         | |- context [LeftTrimWithRefS ?s ?l ?pd] =>
           destruct (LeftTrimWithRefS s l pd) as [[] ?]; cbn
         | |- context [XYToSL ?r ?p] => destruct (XYToSL r p); cbn
         | |- context [if ?test then _ else _] =>
           match type of test with bool => destruct test; cbn end
         end.

(** C1.  Every next-stage directive a stage emits is one the transition
    table lists for it, and a call that emits none leaves [next_stage_]
    as it was, for every scene and whatever the planner and the path
    operations do.  GENERATE_PATH emits BACKUP when the replan fails,
    DETECT_SAFETY when it succeeds with a trajectory that is not empty,
    and nothing otherwise; DETECT_SAFETY emits PASS_OBSTACLE or
    nothing. *)
Theorem directives_within_transition_table
  (planning_start_point : TrajectoryPoint D) (st : Stage D PathData) :
  (forall stage,
     match directive (Process PlanningOnReferenceLine
                        FLAGS_static_decision_nudge_l_buffer stage
                        planning_start_point st) with
     | Some next => In next (transition_table stage)
     | None =>
       next_stage_ (snd (Process PlanningOnReferenceLine
                           FLAGS_static_decision_nudge_l_buffer stage
                           planning_start_point st))
       = next_stage_ st
     end)
  /\ directive (GeneratePath_Process planning_start_point st)
     = (if negb (fst (PlanningOnReferenceLine planning_start_point (frame st)))
        then Some SIDE_PASS_BACKUP
        else if (0 <? List.length
                        (trajectory
                           (front (snd (PlanningOnReferenceLine
                                          planning_start_point (frame st))))))%nat
             then Some SIDE_PASS_DETECT_SAFETY
             else None)
  /\ (directive (DetectSafety_Process planning_start_point st)
      = Some SIDE_PASS_PASS_OBSTACLE
      \/ directive (DetectSafety_Process planning_start_point st) = None).
Proof.
  split; [| split].
  - intros []; unfold Process, directive, transition_table,
      SidePassBackup_Process, SidePassApproachObstacle_Process,
      SidePassGeneratePath_Process, SidePassDetectSafety_Process,
      SidePassPassObstacle_Process;
      run_stage; auto.
  - unfold directive, SidePassGeneratePath_Process.
    destruct (PlanningOnReferenceLine planning_start_point (frame st))
      as [[] frame']; cbn; [| reflexivity].
    destruct (trajectory (front frame')); reflexivity.
  - unfold directive, SidePassDetectSafety_Process. run_stage; auto.
Qed.

End StageProperties.

(** ** The nearest-ahead-on-road distance *)

Section NearestDistance.

Context {D PathData : Type} `{DoubleStrictOrder D} `{!PathDataOps D PathData}.

Local Open Scope double_scope.

Variable PlanningOnReferenceLine :
  TrajectoryPoint D -> Frame D PathData -> bool * Frame D PathData.

Variable reference_line_info : ReferenceLineInfo D PathData.

Variable adc_front_edge_s : D.

Local Abbreviation distance_to o :=
  (start_s (PerceptionSLBoundary o) - adc_front_edge_s).

Local Abbreviation scan :=
  (fold_left (front_obstacle_distance_step reference_line_info adc_front_edge_s)).

Lemma front_obstacle_distance_step_ahead (nearest : D) (o : Obstacle D) :
  front_obstacle_distance_step reference_line_info adc_front_edge_s nearest o
  = if is_ahead_on_road reference_line_info o
    then if distance_to o <? nearest then distance_to o else nearest
    else nearest.
Proof.
  unfold front_obstacle_distance_step, is_ahead_on_road.
  destruct (IsVirtual o); [reflexivity |].
  destruct (HasOverlap _ _); [| reflexivity].
  destruct (end_s _ <=? start_s _); reflexivity.
Qed.

(** The loop keeps the value it starts from or replaces it by the
    distance of an obstacle it takes into account that is below it. *)
Lemma scan_picks (items : list (Obstacle D)) (nearest : D) :
  scan items nearest = nearest
  \/ exists o, In o items /\ is_ahead_on_road reference_line_info o = true
               /\ scan items nearest = distance_to o
               /\ (scan items nearest <? nearest) = true.
Proof.
  revert nearest.
  induction items as [| o rest IH]; intro nearest; [now left |].
  cbn [fold_left]. rewrite front_obstacle_distance_step_ahead.
  destruct (is_ahead_on_road reference_line_info o) eqn:Hahead.
  - destruct (distance_to o <? nearest) eqn:Hcloser.
    + right. destruct (IH (distance_to o)) as [-> | [o' [Hin [Ho' [Heq Hlt]]]]].
      * exists o. cbn [In]. auto.
      * exists o'. cbn [In]. repeat split; auto.
        now apply dlt_trans with (distance_to o).
    + destruct (IH nearest) as [-> | [o' [Hin [Ho' [Heq Hlt]]]]]; [now left |].
      right. exists o'. cbn [In]. auto.
  - destruct (IH nearest) as [-> | [o' [Hin [Ho' [Heq Hlt]]]]]; [now left |].
    right. exists o'. cbn [In]. auto.
Qed.

(** No obstacle the loop takes into account is nearer than its result. *)
Lemma scan_lower_bound (items : list (Obstacle D)) (nearest : D)
  (o : Obstacle D) :
  In o items -> is_ahead_on_road reference_line_info o = true ->
  (distance_to o <? scan items nearest) = false.
Proof.
  revert nearest.
  induction items as [| o' rest IH]; intros nearest Hin Hahead; [easy |].
  cbn [fold_left]. destruct Hin as [-> | Hin]; [| now apply IH].
  rewrite front_obstacle_distance_step_ahead, Hahead.
  destruct (distance_to o <? nearest) eqn:Hcloser.
  - destruct (scan_picks rest (distance_to o)) as [-> | [_ [_ [_ [_ Hlt]]]]].
    + apply dlt_irrefl.
    + apply not_true_is_false. intro Habs.
      pose proof (dlt_trans _ _ _ Habs Hlt) as Hcycle.
      now rewrite dlt_irrefl in Hcycle.
  - destruct (scan_picks rest nearest) as [-> | [_ [_ [_ [_ Hlt]]]]];
      [exact Hcloser |].
    apply not_true_is_false. intro Habs.
    now rewrite (dlt_trans _ _ _ Habs Hlt) in Hcloser.
Qed.

End NearestDistance.

Section NearestDistanceInStage.

Context {D PathData : Type} `{DoubleStrictOrder D} `{!PathDataOps D PathData}.

Local Open Scope double_scope.

Variable PlanningOnReferenceLine :
  TrajectoryPoint D -> Frame D PathData -> bool * Frame D PathData.

(** C6, as the code has it.  In APPROACH_OBSTACLE, once a blocking
    obstacle is found and the replan succeeds, the nearest-ahead-on-road
    distance is the sentinel 1000, or else the value
    [start_s - ego end_s] of a non-virtual obstacle that overlaps the
    road and ends past the ego's start station, and then below 1000; no
    such obstacle has a value below it.  When it is negative the stage
    returns ERROR, and otherwise the stop condition reads it as it is. *)
Theorem nearest_ahead_on_road_is_capped_minimum
  (planning_start_point : TrajectoryPoint D) (st : Stage D PathData)
  (frame' : Frame D PathData) :
  ApproachObstacle_entry_filter st = true ->
  PlanningOnReferenceLine planning_start_point (frame st) = (true, frame') ->
  (nearest_ahead_on_road frame' = lit_1000
   \/ exists o,
        In o (path_decision (front frame'))
        /\ is_ahead_on_road (front frame') o = true
        /\ nearest_ahead_on_road frame'
           = start_s (PerceptionSLBoundary o)
             - end_s (AdcSlBoundary (front frame'))
        /\ (nearest_ahead_on_road frame' <? lit_1000) = true)
  /\ (forall o,
        In o (path_decision (front frame')) ->
        is_ahead_on_road (front frame') o = true ->
        (start_s (PerceptionSLBoundary o)
         - end_s (AdcSlBoundary (front frame'))
         <? nearest_ahead_on_road frame') = false)
  /\ SidePassApproachObstacle_Process PlanningOnReferenceLine
       planning_start_point st
     = if nearest_ahead_on_road frame' <? lit_0
       then (ERROR, set_frame frame' st)
       else if (vehicle_state_linear_velocity frame'
                <? approach_obstacle_max_stop_speed
                     (scenario_config_ (GetContext st)))
               && (nearest_ahead_on_road frame'
                   >? approach_obstacle_min_stop_distance
                        (scenario_config_ (GetContext st)))
            then (FINISHED,
                  set_next_stage_ SIDE_PASS_GENERATE_PATH (set_frame frame' st))
            else (RUNNING, set_frame frame' st).
Proof.
  unfold ApproachObstacle_entry_filter.
  intros Hfilter Hplan. split; [| split].
  - apply scan_picks.
  - intros o Hin Hahead. now apply scan_lower_bound.
  - unfold SidePassApproachObstacle_Process.
    rewrite Hfilter, Hplan. cbn.
    fold (nearest_ahead_on_road frame').
    destruct (nearest_ahead_on_road frame' <? lit_0); reflexivity.
Qed.

End NearestDistanceInStage.

(** ** The obstacle scans on lists put together and reordered *)

Section ObstacleScans.

Context {D : Type} `{Double D}.

Local Open Scope double_scope.

Variable FLAGS_static_decision_nudge_l_buffer : D.

Local Abbreviation backup_filter :=
  (SidePassBackup_has_blocking_obstacle FLAGS_static_decision_nudge_l_buffer).

Lemma existsb_Permutation {A : Type} (p : A -> bool) (l l' : list A) :
  Permutation l l' -> existsb p l = existsb p l'.
Proof.
  induction 1 as [| a l l' _ IH | a b l | l l' l'' _ IH1 _ IH2];
    cbn [existsb]; try congruence.
  now rewrite !orb_assoc, (orb_comm (p b)).
Qed.

(** X1.  Each of the three obstacle loops decides a list of obstacles
    put together from two lists by deciding the two lists: the entry
    filter of BACKUP, as that of APPROACH_OBSTACLE, finds a blocking
    obstacle in the whole exactly when it finds one in either part, and
    the safety loop of DETECT_SAFETY finds the whole safe exactly when it
    finds both parts safe. *)
Theorem obstacle_scans_over_concatenation
  (config : ScenarioConfig D) (reference_line : ReferenceLine D)
  (adc : SLBoundary D) (first second : list (Obstacle D)) :
  backup_filter config reference_line adc (first ++ second)
  = backup_filter config reference_line adc first
    || backup_filter config reference_line adc second
  /\ SidePassApproachObstacle_has_blocking_obstacle config adc (first ++ second)
     = SidePassApproachObstacle_has_blocking_obstacle config adc first
       || SidePassApproachObstacle_has_blocking_obstacle config adc second
  /\ SidePassDetectSafety_is_safe (end_s adc) (first ++ second)
     = SidePassDetectSafety_is_safe (end_s adc) first
       && SidePassDetectSafety_is_safe (end_s adc) second.
Proof.
  rewrite !SidePassBackup_has_blocking_obstacle_existsb,
    !SidePassApproachObstacle_has_blocking_obstacle_existsb,
    !SidePassDetectSafety_is_safe_existsb, !existsb_app, negb_orb.
  repeat split.
Qed.

(** X2.  The order of the obstacles in the list has no part in what the
    three obstacle loops decide, although the loops of BACKUP and
    DETECT_SAFETY leave at the first obstacle that decides: two lists
    that are permutations of each other give the same result. *)
Theorem obstacle_scans_ignore_order
  (config : ScenarioConfig D) (reference_line : ReferenceLine D)
  (adc : SLBoundary D) (items items' : list (Obstacle D)) :
  Permutation items items' ->
  backup_filter config reference_line adc items
  = backup_filter config reference_line adc items'
  /\ SidePassApproachObstacle_has_blocking_obstacle config adc items
     = SidePassApproachObstacle_has_blocking_obstacle config adc items'
  /\ SidePassDetectSafety_is_safe (end_s adc) items
     = SidePassDetectSafety_is_safe (end_s adc) items'.
Proof.
  intro Hperm.
  rewrite !SidePassBackup_has_blocking_obstacle_existsb,
    !SidePassApproachObstacle_has_blocking_obstacle_existsb,
    !SidePassDetectSafety_is_safe_existsb.
  split; [| split]; [| | f_equal]; now apply existsb_Permutation.
Qed.

End ObstacleScans.

(** ** The stages around the call of the planner *)

Section PlannerCallProperties.

Context {D PathData : Type} `{Double D} `{PathDataOps D PathData}.

Local Open Scope double_scope.

Variable PlanningOnReferenceLine :
  TrajectoryPoint D -> Frame D PathData -> bool * Frame D PathData.

Variable FLAGS_static_decision_nudge_l_buffer : D.

Local Abbreviation Process_of planner :=
  (Process planner FLAGS_static_decision_nudge_l_buffer).

Local Abbreviation reaches_planner_in :=
  (reaches_planner FLAGS_static_decision_nudge_l_buffer).

(** [SidePassDetectSafety] and [SidePassPassObstacle] from the hand-off
    on. *)
Lemma SidePassDetectSafety_Process_hand_off
  (planner : TrajectoryPoint D -> Frame D PathData -> bool * Frame D PathData)
  (planning_start_point : TrajectoryPoint D) (st : Stage D PathData) :
  SidePassDetectSafety_Process planner planning_start_point st
  = if fst (hand_off st) then
      let plan :=
        planner planning_start_point (planner_input SidePassDetectSafety st) in
      let st := set_frame (snd plan) (snd (hand_off st)) in
      if fst plan then
        if SidePassDetectSafety_is_safe
             (end_s (AdcSlBoundary (front (snd plan))))
             (path_decision (front (snd plan)))
        then (FINISHED, set_next_stage_ SIDE_PASS_PASS_OBSTACLE st)
        else (RUNNING, st)
      else (ERROR, st)
    else (ERROR, snd (hand_off st)).
Proof.
  unfold SidePassDetectSafety_Process, planner_input, hand_off,
    adc_frenet_frame_point, install_path.
  destruct (UpdateFrenetFramePath _ _) as [[] updated]; cbn; [| reflexivity].
  destruct (LeftTrimWithRefS _ _ _) as [[] trimmed]; cbn; [| reflexivity].
  destruct (planner _ _) as [[] frame']; reflexivity.
Qed.

Lemma SidePassPassObstacle_Process_hand_off
  (planner : TrajectoryPoint D -> Frame D PathData -> bool * Frame D PathData)
  (planning_start_point : TrajectoryPoint D) (st : Stage D PathData) :
  SidePassPassObstacle_Process planner planning_start_point st
  = if fst (hand_off st) then
      let plan :=
        planner planning_start_point (planner_input SidePassPassObstacle st) in
      let st := set_frame (snd plan) (snd (hand_off st)) in
      if fst plan then
        match XYToSL (reference_line (front (snd plan)))
                {| vec_x := pp_x (EndPoint (path_data (front (snd plan))));
                   vec_y := pp_y (EndPoint (path_data (front (snd plan)))) |}
        with
        | None => (ERROR, st)
        | Some sl_point =>
          if (end_s (AdcSlBoundary (front (snd plan)))
              >? sl_s sl_point
                 - side_pass_exit_distance (scenario_config_ (GetContext st)))
             || (vehicle_state_linear_velocity (snd plan)
                 <? approach_obstacle_max_stop_speed
                      (scenario_config_ (GetContext st)))
          then (FINISHED, set_next_stage_ NO_STAGE st)
          else (RUNNING, st)
        end
      else (ERROR, st)
    else (ERROR, snd (hand_off st)).
Proof.
  unfold SidePassPassObstacle_Process, planner_input, hand_off,
    adc_frenet_frame_point, install_path.
  destruct (UpdateFrenetFramePath _ _) as [[] updated]; cbn; [| reflexivity].
  destruct (LeftTrimWithRefS _ _ _) as [[] trimmed]; cbn; [| reflexivity].
  destruct (planner _ _) as [[] frame']; reflexivity.
Qed.

(** The hand-off writes the stored path and nothing else. *)
Lemma hand_off_writes_stored_path (st : Stage D PathData) :
  frame (snd (hand_off st)) = frame st
  /\ next_stage_ (snd (hand_off st)) = next_stage_ st
  /\ scenario_config_ (GetContext (snd (hand_off st)))
     = scenario_config_ (GetContext st).
Proof.
  unfold hand_off.
  destruct (UpdateFrenetFramePath _ _) as [[] updated]; cbn; [| easy].
  destruct (LeftTrimWithRefS _ _ _) as [trim_success trimmed]; easy.
Qed.

(** Every stage written from its call of the planner on: what comes
    before the call is [reaches_planner], the frame of the call is
    [planner_input]. *)
Ltac from_planner_call :=
  unfold Process, SidePassBackup_Process, SidePassApproachObstacle_Process,
    SidePassGeneratePath_Process;
  rewrite ?SidePassDetectSafety_Process_hand_off,
    ?SidePassPassObstacle_Process_hand_off;
  unfold reaches_planner, planner_input, Backup_entry_filter,
    ApproachObstacle_entry_filter.

(** X3.  No stage changes the scenario configuration held in the
    context.  The stored path is left as it is by BACKUP and
    APPROACH_OBSTACLE; GENERATE_PATH replaces it by the path of the frame
    the planner left when the replan succeeds, and by nothing when it
    fails; DETECT_SAFETY and PASS_OBSTACLE leave in it what their hand-off
    made of it, whatever the planner then does to the path of the
    frame. *)
Theorem context_after_stage (stage : SidePassStage)
  (planning_start_point : TrajectoryPoint D) (st : Stage D PathData) :
  scenario_config_
    (GetContext (snd (Process_of PlanningOnReferenceLine stage
                        planning_start_point st)))
  = scenario_config_ (GetContext st)
  /\ path_data_
       (GetContext (snd (Process_of PlanningOnReferenceLine stage
                           planning_start_point st)))
     = match stage with
       | SidePassBackup | SidePassApproachObstacle => path_data_ (GetContext st)
       | SidePassGeneratePath =>
         if fst (PlanningOnReferenceLine planning_start_point (frame st))
         then path_data
                (front (snd (PlanningOnReferenceLine planning_start_point
                               (frame st))))
         else path_data_ (GetContext st)
       | SidePassDetectSafety | SidePassPassObstacle =>
         path_data_ (GetContext (snd (hand_off st)))
       end.
Proof.
  destruct (hand_off_writes_stored_path st) as (_ & _ & Hconfig).
  destruct stage; from_planner_call.
  - destruct (SidePassBackup_has_blocking_obstacle _ _ _ _ _); cbn; [| easy].
    destruct (PlanningOnReferenceLine _ _) as [[] frame']; easy.
  - destruct (SidePassApproachObstacle_has_blocking_obstacle _ _ _); cbn;
      [| easy].
    destruct (PlanningOnReferenceLine _ _) as [[] frame']; cbn; [| easy].
    destruct (_ <? lit_0); [easy |]. destruct (_ && _); easy.
  - destruct (PlanningOnReferenceLine _ _) as [[] frame']; cbn; [| easy].
    destruct (trajectory (front frame')); easy.
  - destruct (fst (hand_off st)); cbn; [| easy].
    destruct (PlanningOnReferenceLine _ _) as [[] frame']; cbn; [| easy].
    destruct (SidePassDetectSafety_is_safe _ _); easy.
  - destruct (fst (hand_off st)); cbn; [| easy].
    destruct (PlanningOnReferenceLine _ _) as [[] frame']; cbn; [| easy].
    destruct (XYToSL _ _); [| easy]. destruct (_ || _); easy.
Qed.


(** X4.  A stage passes the frame on as it got it when it does not reach
    its call of the planner, and otherwise as the planner left it, on the
    stage's planner input: it writes nothing into the frame after the
    call.  The planner has no other part in a call: another planner that
    answers the same on that one input (and any planner, when the call is
    not reached) gives the same status and the same state. *)
Theorem stage_consults_planner_on_one_frame (stage : SidePassStage)
  (planning_start_point : TrajectoryPoint D) (st : Stage D PathData) :
  frame (snd (Process_of PlanningOnReferenceLine stage planning_start_point st))
  = (if reaches_planner_in stage st
     then snd (PlanningOnReferenceLine planning_start_point
                 (planner_input stage st))
     else frame st)
  /\ forall other_planner,
       (reaches_planner_in stage st = true ->
        other_planner planning_start_point (planner_input stage st)
        = PlanningOnReferenceLine planning_start_point (planner_input stage st)) ->
       Process_of other_planner stage planning_start_point st
       = Process_of PlanningOnReferenceLine stage planning_start_point st.
Proof.
  destruct (hand_off_writes_stored_path st) as (Hframe & _ & _).
  split.
  - destruct stage; from_planner_call.
    + destruct (SidePassBackup_has_blocking_obstacle _ _ _ _ _); cbn; [| easy].
      destruct (PlanningOnReferenceLine _ _) as [[] frame']; easy.
    + destruct (SidePassApproachObstacle_has_blocking_obstacle _ _ _); cbn;
        [| easy].
      destruct (PlanningOnReferenceLine _ _) as [[] frame']; cbn; [| easy].
      destruct (_ <? lit_0); [easy |]. destruct (_ && _); easy.
    + destruct (PlanningOnReferenceLine _ _) as [[] frame']; cbn; [| easy].
      destruct (trajectory (front frame')); easy.
    + destruct (fst (hand_off st)); cbn; [| easy].
      destruct (PlanningOnReferenceLine _ _) as [[] frame']; cbn; [| easy].
      destruct (SidePassDetectSafety_is_safe _ _); easy.
    + destruct (fst (hand_off st)); cbn; [| easy].
      destruct (PlanningOnReferenceLine _ _) as [[] frame']; cbn; [| easy].
      destruct (XYToSL _ _); [| easy]. destruct (_ || _); easy.
  - intros other_planner Hsame.
    destruct stage; from_planner_call;
      unfold reaches_planner, planner_input, Backup_entry_filter,
        ApproachObstacle_entry_filter in Hsame.
    + destruct (SidePassBackup_has_blocking_obstacle _ _ _ _ _); cbn;
        [| reflexivity].
      now rewrite Hsame.
    + destruct (SidePassApproachObstacle_has_blocking_obstacle _ _ _); cbn;
        [| reflexivity].
      now rewrite Hsame.
    + now rewrite Hsame.
    + destruct (fst (hand_off st)); [| reflexivity]. now rewrite Hsame.
    + destruct (fst (hand_off st)); [| reflexivity]. now rewrite Hsame.
Qed.

(** X5.  The failures a stage reports as ERROR, and no others: BACKUP a
    failed replan; APPROACH_OBSTACLE a failed replan or a negative
    nearest-ahead-on-road distance in the re-planned scene, both only
    once a blocking obstacle is found; DETECT_SAFETY a failed hand-off of
    the stored path or a failed replan; PASS_OBSTACLE these and a failed
    conversion of the end point of the re-planned path to station and
    lateral offset.  GENERATE_PATH never returns ERROR. *)
Theorem stage_errors (stage : SidePassStage)
  (planning_start_point : TrajectoryPoint D) (st : Stage D PathData) :
  fst (Process_of PlanningOnReferenceLine stage planning_start_point st) = ERROR
  <-> match stage with
      | SidePassBackup =>
        reaches_planner_in stage st = true
        /\ fst (PlanningOnReferenceLine planning_start_point
                  (planner_input stage st)) = false
      | SidePassApproachObstacle =>
        reaches_planner_in stage st = true
        /\ (fst (PlanningOnReferenceLine planning_start_point
                   (planner_input stage st)) = false
            \/ (nearest_ahead_on_road
                  (snd (PlanningOnReferenceLine planning_start_point
                          (planner_input stage st))) <? lit_0) = true)
      | SidePassGeneratePath => False
      | SidePassDetectSafety =>
        reaches_planner_in stage st = false
        \/ fst (PlanningOnReferenceLine planning_start_point
                  (planner_input stage st)) = false
      | SidePassPassObstacle =>
        reaches_planner_in stage st = false
        \/ fst (PlanningOnReferenceLine planning_start_point
                  (planner_input stage st)) = false
        \/ XYToSL
             (reference_line
                (front (snd (PlanningOnReferenceLine planning_start_point
                               (planner_input stage st)))))
             {| vec_x :=
                  pp_x (EndPoint
                          (path_data
                             (front (snd (PlanningOnReferenceLine
                                            planning_start_point
                                            (planner_input stage st))))));
                vec_y :=
                  pp_y (EndPoint
                          (path_data
                             (front (snd (PlanningOnReferenceLine
                                            planning_start_point
                                            (planner_input stage st)))))) |}
           = None
      end.
Proof.
  destruct stage; from_planner_call; unfold nearest_ahead_on_road.
  - destruct (SidePassBackup_has_blocking_obstacle _ _ _ _ _); cbn;
      [| intuition discriminate].
    destruct (PlanningOnReferenceLine _ _) as [[] frame']; cbn;
      intuition discriminate.
  - destruct (SidePassApproachObstacle_has_blocking_obstacle _ _ _); cbn;
      [| intuition discriminate].
    destruct (PlanningOnReferenceLine _ _) as [[] frame']; cbn;
      [| intuition discriminate].
    destruct (_ <? lit_0); cbn; [intuition discriminate |].
    destruct (_ && _); cbn; intuition discriminate.
  - destruct (PlanningOnReferenceLine _ _) as [[] frame']; cbn;
      [| intuition discriminate].
    destruct (trajectory (front frame')); cbn; intuition discriminate.
  - destruct (fst (hand_off st)); cbn; [| intuition discriminate].
    destruct (PlanningOnReferenceLine _ _) as [[] frame']; cbn;
      [| intuition discriminate].
    destruct (SidePassDetectSafety_is_safe _ _); cbn; intuition discriminate.
  - destruct (fst (hand_off st)); cbn; [| intuition discriminate].
    destruct (PlanningOnReferenceLine _ _) as [[] frame']; cbn;
      [| intuition discriminate].
    destruct (XYToSL _ _); cbn; [| intuition discriminate].
    destruct (_ || _); cbn; intuition discriminate.
Qed.

(** X6.  With a planner that leaves the debug sink of the frame as it
    is, DETECT_SAFETY and PASS_OBSTACLE append to the sink one path,
    named DpPolyPathOptimizer, with the points of the stored path as the
    hand-off left it, on every call whose hand-off succeeds; they append
    nothing when it fails, and the other three stages never write to the
    sink. *)
Theorem debug_sink_after_stage (stage : SidePassStage)
  (planning_start_point : TrajectoryPoint D) (st : Stage D PathData) :
  (forall p f,
     debug (front (snd (PlanningOnReferenceLine p f))) = debug (front f)) ->
  debug (front (frame (snd (Process_of PlanningOnReferenceLine stage
                              planning_start_point st))))
  = debug (front (frame st))
    ++ match stage with
       | SidePassDetectSafety | SidePassPassObstacle =>
         if fst (hand_off st)
         then [{| debug_name := "DpPolyPathOptimizer";
                  debug_path_point :=
                    path_points (path_data_ (GetContext (snd (hand_off st)))) |}]
         else []
       | _ => []
       end.
Proof.
  intro Hkeeps.
  destruct (hand_off_writes_stored_path st) as (Hframe & _ & _).
  assert (Hplan : forall f,
            debug (front (snd (PlanningOnReferenceLine planning_start_point f)))
            = debug (front f)) by (intro f; apply Hkeeps).
  destruct stage; from_planner_call.
  - destruct (SidePassBackup_has_blocking_obstacle _ _ _ _ _); cbn;
      [| now rewrite app_nil_r].
    specialize (Hplan (frame st)).
    destruct (PlanningOnReferenceLine _ _) as [[] frame']; cbn in *;
      now rewrite app_nil_r.
  - destruct (SidePassApproachObstacle_has_blocking_obstacle _ _ _); cbn;
      [| now rewrite app_nil_r].
    specialize (Hplan (frame st)).
    destruct (PlanningOnReferenceLine _ _) as [[] frame']; cbn in *;
      [| now rewrite app_nil_r].
    destruct (_ <? lit_0); [now rewrite app_nil_r |].
    destruct (_ && _); now rewrite app_nil_r.
  - specialize (Hplan (frame st)).
    destruct (PlanningOnReferenceLine _ _) as [[] frame']; cbn in *;
      [| now rewrite app_nil_r].
    destruct (trajectory (front frame')); now rewrite app_nil_r.
  - destruct (fst (hand_off st)); cbn; [| now rewrite Hframe, app_nil_r].
    match goal with
    | |- context [PlanningOnReferenceLine _ ?f] => specialize (Hplan f)
    end.
    destruct (PlanningOnReferenceLine _ _) as [[] frame']; cbn in *;
      [| exact Hplan].
    destruct (SidePassDetectSafety_is_safe _ _); exact Hplan.
  - destruct (fst (hand_off st)); cbn; [| now rewrite Hframe, app_nil_r].
    match goal with
    | |- context [PlanningOnReferenceLine _ ?f] => specialize (Hplan f)
    end.
    destruct (PlanningOnReferenceLine _ _) as [[] frame']; cbn in *;
      [| exact Hplan].
    destruct (XYToSL _ _); [| exact Hplan]. destruct (_ || _); exact Hplan.
Qed.

(** X7.  On a scene in which every obstacle is virtual, or not static,
    or faster than the speed cutoff, or behind the ego, or beyond the
    15 m window (a scene without obstacles is one), BACKUP and
    APPROACH_OBSTACLE both return FINISHED with directive NO_STAGE, the
    planner is not called and the frame and the context stay as they
    were. *)
Theorem scene_without_candidates_ends_side_pass
  (planning_start_point : TrajectoryPoint D) (st : Stage D PathData) :
  forallb (filtered_out (scenario_config_ (GetContext st))
             (AdcSlBoundary (front (frame st))))
    (path_decision (front (frame st))) = true ->
  SidePassBackup_Process PlanningOnReferenceLine
    FLAGS_static_decision_nudge_l_buffer planning_start_point st
  = (FINISHED, set_next_stage_ NO_STAGE st)
  /\ SidePassApproachObstacle_Process PlanningOnReferenceLine
       planning_start_point st
     = (FINISHED, set_next_stage_ NO_STAGE st).
Proof.
  intro Hall.
  assert (Hnone : forall q : Obstacle D -> bool,
            existsb (fun o => negb (filtered_out
                                      (scenario_config_ (GetContext st))
                                      (AdcSlBoundary (front (frame st))) o)
                              && q o)
              (path_decision (front (frame st))) = false).
  { intro q. apply not_true_is_false. rewrite existsb_exists.
    intros [o [Hin Ho]]. rewrite forallb_forall in Hall.
    now rewrite (Hall o Hin) in Ho. }
  unfold SidePassBackup_Process, SidePassApproachObstacle_Process.
  now rewrite SidePassBackup_has_blocking_obstacle_existsb,
    SidePassApproachObstacle_has_blocking_obstacle_existsb, !Hnone.
Qed.

(** X8.  GENERATE_PATH followed by DETECT_SAFETY.  When the replan of
    GENERATE_PATH succeeds, the path it planned is the path DETECT_SAFETY
    follows on the frame of the next cycle: DETECT_SAFETY projects that
    path on the reference line of the new frame, trims it at the ego's
    Frenet point, calls the planner on the new frame with the trimmed
    path installed in it and keeps the trimmed path as the stored
    path. *)
Theorem generated_path_is_followed
  (planning_start_point planning_start_point' : TrajectoryPoint D)
  (st : Stage D PathData) (frame' next_frame : Frame D PathData)
  (updated trimmed : PathData) :
  PlanningOnReferenceLine planning_start_point (frame st) = (true, frame') ->
  UpdateFrenetFramePath (reference_line (front next_frame))
    (path_data (front frame')) = (true, updated) ->
  LeftTrimWithRefS (frenet_s (adc_frenet_frame_point next_frame))
    (frenet_l (adc_frenet_frame_point next_frame)) updated = (true, trimmed) ->
  frame (snd (SidePassDetectSafety_Process PlanningOnReferenceLine
                planning_start_point'
                (set_frame next_frame
                   (snd (SidePassGeneratePath_Process PlanningOnReferenceLine
                           planning_start_point st)))))
  = snd (PlanningOnReferenceLine planning_start_point'
           (install_path trimmed next_frame))
  /\ path_data_
       (GetContext
          (snd (SidePassDetectSafety_Process PlanningOnReferenceLine
                  planning_start_point'
                  (set_frame next_frame
                     (snd (SidePassGeneratePath_Process PlanningOnReferenceLine
                             planning_start_point st))))))
     = trimmed.
Proof.
  unfold adc_frenet_frame_point. intros Hplan Hupdate Htrim.
  assert (Hstored :
            path_data_
              (GetContext
                 (set_frame next_frame
                    (snd (SidePassGeneratePath_Process PlanningOnReferenceLine
                            planning_start_point st))))
            = path_data (front frame')).
  { unfold SidePassGeneratePath_Process. rewrite Hplan. cbn.
    destruct (trajectory (front frame')); reflexivity. }
  unfold SidePassDetectSafety_Process.
  rewrite Hstored. cbn [set_frame frame]. rewrite Hupdate. cbn.
  rewrite Htrim. cbn.
  destruct (PlanningOnReferenceLine planning_start_point' _) as [[] frame''];
    cbn; [| easy].
  destruct (SidePassDetectSafety_is_safe _ _); easy.
Qed.

(** X9.  A stage returns RUNNING only from beyond its call of the
    planner and only when the replan has succeeded, and the frame it
    hands back is then the frame as the planner left it. *)
Theorem running_stage_has_planned (stage : SidePassStage)
  (planning_start_point : TrajectoryPoint D) (st : Stage D PathData) :
  fst (Process_of PlanningOnReferenceLine stage planning_start_point st)
  = RUNNING ->
  reaches_planner_in stage st = true
  /\ fst (PlanningOnReferenceLine planning_start_point (planner_input stage st))
     = true
  /\ frame (snd (Process_of PlanningOnReferenceLine stage
                   planning_start_point st))
     = snd (PlanningOnReferenceLine planning_start_point
              (planner_input stage st)).
Proof.
  destruct stage; from_planner_call.
  - destruct (SidePassBackup_has_blocking_obstacle _ _ _ _ _); cbn;
      [| discriminate].
    destruct (PlanningOnReferenceLine _ _) as [[] frame']; cbn;
      [easy | discriminate].
  - destruct (SidePassApproachObstacle_has_blocking_obstacle _ _ _); cbn;
      [| discriminate].
    destruct (PlanningOnReferenceLine _ _) as [[] frame']; cbn;
      [| discriminate].
    destruct (_ <? lit_0); cbn; [discriminate |].
    destruct (_ && _); cbn; [discriminate | easy].
  - destruct (PlanningOnReferenceLine _ _) as [[] frame']; cbn;
      [| discriminate].
    destruct (trajectory (front frame')); cbn; [easy | discriminate].
  - destruct (fst (hand_off st)); cbn; [| discriminate].
    destruct (PlanningOnReferenceLine _ _) as [[] frame']; cbn;
      [| discriminate].
    destruct (SidePassDetectSafety_is_safe _ _); cbn; [discriminate | easy].
  - destruct (fst (hand_off st)); cbn; [| discriminate].
    destruct (PlanningOnReferenceLine _ _) as [[] frame']; cbn;
      [| discriminate].
    destruct (XYToSL _ _); cbn; [| discriminate].
    destruct (_ || _); cbn; [discriminate | easy].
Qed.

End PlannerCallProperties.

(** ** The sign of the nearest-ahead-on-road distance *)

Section NearestDistanceSign.

Context {D PathData : Type} `{DoubleOrderedArith D} `{!PathDataOps D PathData}.

Local Open Scope double_scope.

Variable PlanningOnReferenceLine :
  TrajectoryPoint D -> Frame D PathData -> bool * Frame D PathData.

Lemma dlt_dle_trans (a b c : D) :
  (a <? b) = true -> (b <=? c) = true -> (a <? c) = true.
Proof.
  intros Hab Hbc.
  destruct (dlt_ordered _ _ Hab) as [Ha Hb].
  destruct (dle_ordered _ _ Hbc) as [_ Hc].
  rewrite dlt_dle in * by assumption.
  rewrite negb_true_iff in *.
  apply not_true_is_false. intro Hca.
  now rewrite (dle_trans _ _ _ Hbc Hca) in Hab.
Qed.

(** The strict order the ordered arithmetic carries. *)
Lemma DoubleOrderedArith_strict_order : DoubleStrictOrder D.
Proof.
  split.
  - intro a. apply not_true_is_false. intro Haa.
    destruct (dlt_ordered _ _ Haa) as [Ha _].
    rewrite dlt_dle, negb_true_iff in Haa by assumption.
    now rewrite dle_refl in Haa.
  - intros a b c Hab Hbc.
    apply dlt_dle_trans with b; [exact Hab | now apply dlt_true_dle].
Qed.

#[local] Existing Instance DoubleOrderedArith_strict_order.

(** X10.  The nearest-ahead-on-road distance of APPROACH_OBSTACLE is
    never a NaN, whatever the geometry of the obstacles, and it is
    negative exactly when some obstacle the loop takes into account (not
    virtual, overlapping the road, ending past the ego's start station)
    has a negative [start_s - ego end_s]: a larger distance found
    elsewhere in the list does not hide it.  So, once a blocking obstacle
    is found and the replan succeeds, the stage returns ERROR exactly
    when the re-planned scene holds such an obstacle. *)
Theorem front_obstacle_distance_sign
  (reference_line_info : ReferenceLineInfo D PathData) (adc_front_edge_s : D)
  (items : list (Obstacle D)) :
  dordered (lit_1000 : D) = true ->
  ((lit_1000 : D) <? lit_0) = false ->
  dordered (front_obstacle_distance reference_line_info adc_front_edge_s items)
  = true
  /\ (front_obstacle_distance reference_line_info adc_front_edge_s items
      <? lit_0)
     = existsb
         (fun o => is_ahead_on_road reference_line_info o
                   && (start_s (PerceptionSLBoundary o) - adc_front_edge_s
                       <? lit_0))
         items
  /\ forall planning_start_point st frame',
       ApproachObstacle_entry_filter st = true ->
       PlanningOnReferenceLine planning_start_point (frame st) = (true, frame') ->
       (fst (SidePassApproachObstacle_Process PlanningOnReferenceLine
               planning_start_point st) = ERROR
        <-> exists o,
              In o (path_decision (front frame'))
              /\ is_ahead_on_road (front frame') o = true
              /\ (start_s (PerceptionSLBoundary o)
                  - end_s (AdcSlBoundary (front frame')) <? lit_0) = true).
Proof.
  intros Hsentinel Hpositive.
  assert (Hordered : forall rli e l,
            dordered (front_obstacle_distance (PathData := PathData) rli e l)
            = true).
  { intros rli e l. unfold front_obstacle_distance.
    destruct (scan_picks rli e l lit_1000) as [-> | (_ & _ & _ & _ & Hlt)];
      [exact Hsentinel |].
    now destruct (dlt_ordered _ _ Hlt). }
  assert (Hsign : forall rli e l,
            (front_obstacle_distance (PathData := PathData) rli e l <? lit_0)
            = true
            <-> exists o,
                  In o l /\ is_ahead_on_road rli o = true
                  /\ (start_s (PerceptionSLBoundary o) - e <? lit_0) = true).
  { intros rli e l. unfold front_obstacle_distance. split.
    - intro Hnegative.
      destruct (scan_picks rli e l lit_1000)
        as [Heq | (o & Hin & Hahead & Heq & _)].
      + rewrite Heq in Hnegative. congruence.
      + exists o. rewrite <- Heq. auto.
    - intros (o & Hin & Hahead & Hnegative).
      pose proof (scan_lower_bound rli e l lit_1000 o Hin Hahead) as Hbound.
      destruct (dlt_ordered _ _ Hnegative) as [Ho _].
      apply dlt_false_dle in Hbound; [| exact Ho | apply Hordered].
      apply not_false_is_true. intro Hnot.
      destruct (dlt_ordered _ _ Hnegative) as [_ Hzero].
      apply dlt_false_dle in Hnot; [| apply Hordered | exact Hzero].
      pose proof (dlt_dle_trans _ _ _ Hnegative Hnot) as Hcycle.
      rewrite dlt_dle, negb_true_iff in Hcycle by (try apply Hordered; assumption).
      congruence. }
  split; [apply Hordered |]. split.
  - apply eq_iff_eq_true. rewrite Hsign, existsb_exists.
    split; intros (o & Hin & Ho); exists o; (split; [exact Hin |]).
    + now apply andb_true_iff.
    + now apply andb_true_iff in Ho.
  - unfold ApproachObstacle_entry_filter.
    intros planning_start_point st frame' Hfilter Hplan.
    rewrite <- Hsign.
    unfold SidePassApproachObstacle_Process. rewrite Hfilter, Hplan. cbn.
    destruct (front_obstacle_distance _ _ _ <? lit_0); cbn;
      [easy |].
    destruct (_ && _); cbn; split; discriminate.
Qed.

End NearestDistanceSign.

(** ** The driving width and the width of the lane *)

Section NarrowLane.

Context {D : Type} `{DoubleOrderedArith D}.

Local Open Scope double_scope.

Variable FLAGS_static_decision_nudge_l_buffer : D.

Lemma std_min_dle_l (a b : D) :
  dordered a = true -> (std_min a b <=? a) = true.
Proof.
  intro Ha. unfold std_min.
  destruct (b <? a) eqn:E; [now apply dlt_true_dle | now apply dle_refl].
Qed.

Lemma dadd_finite_ordered (a b : D) :
  dfinite a = true -> dfinite b = true -> dordered (a + b) = true.
Proof.
  intros Ha Hb.
  apply (dle_ordered (a + b) (a + b)).
  apply dadd_mono_l; [exact Hb |]. now apply dle_refl, dfinite_ordered.
Qed.

(** X11.  Whatever the lateral extent of the obstacle (a NaN included),
    the driving width beside it is at most the lane width, left plus
    right, less the nudge buffer.  Hence on a reference line whose lane
    width less the nudge buffer nowhere exceeds 0.3 m the lateral test of
    the BACKUP filter decides nothing: the filter finds a blocking
    obstacle exactly when some obstacle passes its guards. *)
Theorem driving_width_at_most_lane_width :
  dfinite FLAGS_static_decision_nudge_l_buffer = true ->
  (forall (sl : SLBoundary D) (l r : D),
     dfinite l = true -> dfinite r = true ->
     (driving_width FLAGS_static_decision_nudge_l_buffer l r sl
      <=? (l + r) - FLAGS_static_decision_nudge_l_buffer) = true)
  /\ (forall (config : ScenarioConfig D) (adc : SLBoundary D)
        (reference_line : ReferenceLine D) (items : list (Obstacle D)),
       (forall s : D,
          dfinite (fst (lane_width_at reference_line s)) = true
          /\ dfinite (snd (lane_width_at reference_line s)) = true
          /\ ((fst (lane_width_at reference_line s)
               + snd (lane_width_at reference_line s))
              - FLAGS_static_decision_nudge_l_buffer >? lit_0_3) = false) ->
       SidePassBackup_has_blocking_obstacle
         FLAGS_static_decision_nudge_l_buffer config reference_line adc items
       = existsb (fun o => negb (filtered_out config adc o)) items).
Proof.
  intro Hnudge.
  assert (Hcap : forall (sl : SLBoundary D) (l r : D),
            dfinite l = true -> dfinite r = true ->
            (driving_width FLAGS_static_decision_nudge_l_buffer l r sl
             <=? (l + r) - FLAGS_static_decision_nudge_l_buffer) = true).
  { intros sl l r Hl Hr. unfold driving_width.
    apply dsub_mono_l; [exact Hnudge |].
    now apply std_min_dle_l, dadd_finite_ordered. }
  split; [exact Hcap |].
  intros config adc reference_line items Hnarrow.
  rewrite SidePassBackup_has_blocking_obstacle_existsb.
  apply existsb_pointwise. intro o.
  destruct (Hnarrow (start_s (PerceptionSLBoundary o))) as (Hl & Hr & Hle).
  assert (Hblock : is_lateral_blocker FLAGS_static_decision_nudge_l_buffer
                     reference_line o = true).
  { unfold is_lateral_blocker, kLBufferThreshold.
    apply negb_true_iff, not_true_is_false. intro Hwide.
    pose proof (dlt_dle_trans _ _ _ Hwide
                  (Hcap (PerceptionSLBoundary o) _ _ Hl Hr)) as Habs.
    congruence. }
  now rewrite Hblock, andb_true_r.
Qed.

End NarrowLane.

(** ** Obstacles with a NaN footprint, on binary64 *)

Section NaNFootprint.

Local Open Scope double_scope.

Variable FLAGS_static_decision_nudge_l_buffer : float.

Lemma float_ltb_unordered (a b : float) :
  float_ordered a = false \/ float_ordered b = false -> (a <? b) = false.
Proof.
  intro Hnan. apply not_true_is_false. intro Hlt.
  destruct (dlt_ordered (D := float) _ _ Hlt) as [Ha Hb].
  cbn in Ha, Hb. destruct Hnan; congruence.
Qed.

Lemma float_leb_unordered (a b : float) :
  float_ordered a = false \/ float_ordered b = false -> (a <=? b) = false.
Proof.
  intro Hnan. apply not_true_is_false. intro Hle.
  destruct (dle_ordered (D := float) _ _ Hle) as [Ha Hb].
  cbn in Ha, Hb. destruct Hnan; congruence.
Qed.

Lemma float_add_unordered (a b : float) :
  float_ordered b = false -> float_ordered (a + b) = false.
Proof.
  unfold float_ordered. cbn [dadd Double_float].
  rewrite add_spec. unfold SF64add.
  destruct (Prim2SF b); try discriminate. intros _.
  destruct (Prim2SF a) as [[] | [] | | [] m e]; reflexivity.
Qed.

Lemma float_sub_unordered (a b : float) :
  float_ordered b = false -> float_ordered (a - b) = false.
Proof.
  unfold float_ordered. cbn [dsub Double_float].
  rewrite sub_spec. unfold SF64sub.
  destruct (Prim2SF b); try discriminate. intros _.
  destruct (Prim2SF a) as [[] | [] | | [] m e]; reflexivity.
Qed.

(** X12.  An obstacle that is not virtual, is static and not faster
    than the cutoff, and whose footprint on the reference line is NaN
    (start station and both lateral bounds), passes the two station
    guards of the entry filters.  APPROACH_OBSTACLE then counts it as a
    blocking obstacle wherever it stands in the list.  BACKUP computes
    beside it the driving width of the free lane, left plus right width
    less the nudge buffer, and counts it as blocking only when that does
    not exceed 0.3 m. *)
Theorem nan_footprint_obstacle
  (config : ScenarioConfig float) (reference_line : ReferenceLine float)
  (adc : SLBoundary float) (pre post : list (Obstacle float))
  (o : Obstacle float) :
  IsVirtual o = false -> IsStatic o = true ->
  faster_than_cutoff config o = false ->
  float_ordered (start_s (PerceptionSLBoundary o)) = false ->
  float_ordered (start_l (PerceptionSLBoundary o)) = false ->
  float_ordered (end_l (PerceptionSLBoundary o)) = false ->
  filtered_out config adc o = false
  /\ SidePassApproachObstacle_has_blocking_obstacle config adc
       (pre ++ o :: post) = true
  /\ driving_width FLAGS_static_decision_nudge_l_buffer
       (fst (lane_width_at reference_line (start_s (PerceptionSLBoundary o))))
       (snd (lane_width_at reference_line (start_s (PerceptionSLBoundary o))))
       (PerceptionSLBoundary o)
     = (fst (lane_width_at reference_line (start_s (PerceptionSLBoundary o)))
        + snd (lane_width_at reference_line (start_s (PerceptionSLBoundary o))))
       - FLAGS_static_decision_nudge_l_buffer
  /\ SidePassBackup_has_blocking_obstacle FLAGS_static_decision_nudge_l_buffer
       config reference_line adc (o :: post)
     = if (fst (lane_width_at reference_line
                  (start_s (PerceptionSLBoundary o)))
           + snd (lane_width_at reference_line
                    (start_s (PerceptionSLBoundary o))))
          - FLAGS_static_decision_nudge_l_buffer >? lit_0_3
       then SidePassBackup_has_blocking_obstacle
              FLAGS_static_decision_nudge_l_buffer config reference_line adc
              post
       else true.
Proof.
  intros Hvirtual Hstatic Hspeed Hs Hl0 Hl1.
  assert (Hguards : filtered_out config adc o = false).
  { unfold filtered_out, is_virtual_or_moving, behind_ego, outside_window.
    rewrite Hvirtual, Hstatic, Hspeed. cbn [negb orb].
    rewrite float_leb_unordered by now left.
    rewrite float_ltb_unordered by now right.
    reflexivity. }
  assert (Hwidth : forall l r : float,
            driving_width FLAGS_static_decision_nudge_l_buffer l r
              (PerceptionSLBoundary o)
            = (l + r) - FLAGS_static_decision_nudge_l_buffer).
  { intros l r. unfold driving_width, std_max, std_min.
    rewrite (float_ltb_unordered (l - _) (r + _))
      by (left; now apply float_sub_unordered).
    rewrite (float_ltb_unordered (l - _) (l + r))
      by (left; now apply float_sub_unordered).
    reflexivity. }
  split; [exact Hguards |]. split; [| split].
  - rewrite SidePassApproachObstacle_has_blocking_obstacle_existsb,
      existsb_app.
    cbn [existsb]. rewrite Hguards. unfold overlaps_corridor.
    rewrite (float_ltb_unordered lit_1) by now right.
    rewrite (float_ltb_unordered _ lit_neg_1) by now left.
    cbn [negb orb andb]. now rewrite orb_true_r.
  - apply Hwidth.
  - rewrite !SidePassBackup_has_blocking_obstacle_existsb. cbn [existsb].
    rewrite Hguards. unfold is_lateral_blocker, kLBufferThreshold.
    rewrite Hwidth. cbn [negb andb].
    destruct (lit_0_3 <? _); reflexivity.
Qed.

End NaNFootprint.

(** ** The theorems on the scenarios *)

Import Scenario.

Local Open Scope float_scope.

(** A virtual obstacle makes neither filter report a blocking obstacle. *)
Lemma filtered_out_obstacle_never_blocking_witness :
  SidePassBackup_has_blocking_obstacle nudge_l_buffer config (road 1.8 1.8)
    (ego 0) [car_beside_lane; marker "SP_1" 5]
  = SidePassBackup_has_blocking_obstacle nudge_l_buffer config (road 1.8 1.8)
      (ego 0) [car_beside_lane]
  /\ SidePassApproachObstacle_has_blocking_obstacle config (ego 0)
       [marker "SP_1" 5] = false.
Proof.
  pose proof (filtered_out_obstacle_never_blocking nudge_l_buffer config
                (road 1.8 1.8) (ego 0) [car_beside_lane] []
                (marker "SP_1" 5) (or_introl eq_refl)) as Hw.
  split; [exact (proj2 (proj1 Hw)) | exact (proj1 (proj2 Hw))].
Defined.

(** C4 as stated fails on the scenario of section 8: the parked car passes
    every guard and the driving width beside it, 1.0 m, exceeds the 0.3 m
    threshold, yet the filter does not classify it as blocking. *)
Lemma wide_driving_width_is_not_blocking :
  filtered_out config (ego 0) parked_car = false
  /\ (lit_0_3
      <? driving_width nudge_l_buffer 1.8 1.8 (PerceptionSLBoundary parked_car))
     = true
  /\ SidePassBackup_has_blocking_obstacle nudge_l_buffer config (road 1.8 1.8)
       (ego 0) [parked_car] = false.
Proof.
  split; [reflexivity |]. split; reflexivity.
Qed.

(** The scenario of section 8: with 1.0 m of driving width the parked car
    is passed over by the filter. *)
Lemma SidePassBackup_lateral_blocker_witness :
  SidePassBackup_has_blocking_obstacle nudge_l_buffer config (road 1.8 1.8)
    (ego 0) [parked_car] = false.
Proof.
  rewrite (SidePassBackup_lateral_blocker nudge_l_buffer config (road 1.8 1.8)
             (ego 0) parked_car [] (lane_left_width := 1.8)
             (lane_right_width := 1.8)) by reflexivity.
  reflexivity.
Defined.

(** Beside the parked car of section 8, a left lane width of 0.6 m gives
    no more driving width than one of 1.8 m, and the car stays blocking
    when a 0.5 m lane shrinks to 0.1 m. *)
Lemma driving_width_monotone_in_lane_width_witness :
  (driving_width nudge_l_buffer 0.6 1.8 (PerceptionSLBoundary parked_car)
   <=? driving_width nudge_l_buffer 1.8 1.8 (PerceptionSLBoundary parked_car))
  = true
  /\ SidePassBackup_has_blocking_obstacle nudge_l_buffer config (road 0.1 0.1)
       (ego 0) [parked_car] = true.
Proof.
  pose proof (driving_width_monotone_in_lane_width
                (H0 := DoubleOrderedArith_float) nudge_l_buffer eq_refl)
    as [Hwidth Hfilter].
  split.
  - exact (Hwidth (PerceptionSLBoundary parked_car) 1.8 0.6 1.8 1.8
             eq_refl eq_refl eq_refl eq_refl eq_refl eq_refl eq_refl eq_refl).
  - apply (Hfilter config (ego 0) (road 0.5 0.5)).
    + intros o [<- | []]. split; reflexivity.
    + intro s. repeat split; reflexivity.
    + reflexivity.
Defined.

(** The scenario of section 8 in BACKUP, and a car beside the corridor in
    APPROACH_OBSTACLE: no blocking obstacle, the stage leaves with
    NO_STAGE and the scene is as it was. *)
Lemma no_blocking_obstacle_leaves_scene_untouched_witness :
  SidePassBackup_Process planner_fails nudge_l_buffer start_point backup_scene
  = (FINISHED, set_next_stage_ NO_STAGE backup_scene)
  /\ SidePassApproachObstacle_Process planner_fails start_point
       (approach_scene [car_beside_lane])
     = (FINISHED, set_next_stage_ NO_STAGE (approach_scene [car_beside_lane])).
Proof.
  split.
  - exact (proj1 (proj1 (no_blocking_obstacle_leaves_scene_untouched
                           planner_fails nudge_l_buffer start_point
                           backup_scene) eq_refl)).
  - exact (proj1 (proj2 (no_blocking_obstacle_leaves_scene_untouched
                           planner_fails nudge_l_buffer start_point
                           (approach_scene [car_beside_lane])) eq_refl)).
Defined.

(** The scenario of section 8: at 1.0 m/s with the nearest obstacle 6.0 m
    ahead the stage hands over to GENERATE_PATH. *)
Lemma SidePassApproachObstacle_stop_condition_witness :
  SidePassApproachObstacle_Process planner_keeps start_point
    (approach_scene [car_ahead 6])
  = (FINISHED,
     set_next_stage_ SIDE_PASS_GENERATE_PATH (approach_scene [car_ahead 6])).
Proof.
  rewrite (SidePassApproachObstacle_stop_condition planner_keeps start_point
             (approach_scene [car_ahead 6])
             (frame' := frame (approach_scene [car_ahead 6])))
    by reflexivity.
  reflexivity.
Defined.

(** A marker "SP_7" ahead of the ego in the re-planned scene keeps
    DETECT_SAFETY running. *)
Lemma SidePassDetectSafety_unsafe_marker_witness :
  fst (SidePassDetectSafety_Process
         (planner_yields [point_at 0; point_at 20] [] [marker "SP_7" 5])
         start_point detect_safety_scene) = RUNNING.
Proof.
  pose proof (SidePassDetectSafety_unsafe_marker
                (planner_yields [point_at 0; point_at 20] []
                   [marker "SP_7" 5])
                start_point detect_safety_scene
                (updated := [point_at 0; point_at 20])
                (trimmed := [point_at 0; point_at 20])
                (frame' := snd (planner_yields [point_at 0; point_at 20] []
                                  [marker "SP_7" 5] start_point
                                  (install_path [point_at 0; point_at 20]
                                     (frame detect_safety_scene)))))
    as Hmarker.
  destruct Hmarker as [_ Hrun]; [reflexivity | reflexivity | reflexivity |].
  rewrite Hrun. reflexivity.
Defined.

(** The scenario of section 8: with the path ending at station 55 and an
    exit margin of 3, an ego whose front edge is at 53 leaves the
    maneuver. *)
Lemma SidePassPassObstacle_exit_condition_witness :
  fst (SidePassPassObstacle_Process planner_keeps start_point
         (pass_obstacle_scene 53)) = FINISHED.
Proof.
  rewrite (SidePassPassObstacle_exit_condition planner_keeps start_point
             (pass_obstacle_scene 53)
             (updated := [point_at 40; point_at 55])
             (trimmed := [point_at 55])
             (frame' := install_path [point_at 55]
                          (frame (pass_obstacle_scene 53))))
    by reflexivity.
  reflexivity.
Defined.

(** A failing replan in GENERATE_PATH degrades to BACKUP. *)
Lemma SidePassGeneratePath_outcome_witness :
  SidePassGeneratePath_Process planner_fails start_point generate_path_scene
  = (FINISHED, set_next_stage_ SIDE_PASS_BACKUP generate_path_scene).
Proof.
  exact (proj1 (proj1 (SidePassGeneratePath_outcome planner_fails start_point
                         generate_path_scene eq_refl) eq_refl)).
Defined.

(** C2 as stated fails when the replan succeeds with an empty
    trajectory: the stage returns RUNNING, and the stored path is no
    longer what it was. *)
Lemma empty_trajectory_still_stores_path :
  fst (planner_yields [point_at 1] [] [] start_point (frame generate_path_scene))
  = true
  /\ trajectory
       (front (snd (planner_yields [point_at 1] [] [] start_point
                      (frame generate_path_scene)))) = []
  /\ fst (SidePassGeneratePath_Process (planner_yields [point_at 1] [] [])
            start_point generate_path_scene) = RUNNING
  /\ path_data_
       (GetContext
          (snd (SidePassGeneratePath_Process (planner_yields [point_at 1] [] [])
                  start_point generate_path_scene)))
     <> path_data_ (GetContext generate_path_scene).
Proof.
  split; [reflexivity |]. split; [reflexivity |]. split; [reflexivity |].
  discriminate.
Qed.

(** The nearest obstacle 6.0 m ahead: nothing taken into account is
    nearer than the computed distance. *)
Lemma nearest_ahead_on_road_is_capped_minimum_witness :
  (start_s (PerceptionSLBoundary (car_ahead 6))
   - end_s (AdcSlBoundary (front (frame (approach_scene [car_ahead 6])))) 
   <? nearest_ahead_on_road (frame (approach_scene [car_ahead 6]))) = false.
Proof.
  exact (proj1 (proj2 (nearest_ahead_on_road_is_capped_minimum
                         planner_keeps start_point
                         (approach_scene [car_ahead 6]) eq_refl eq_refl))
           (car_ahead 6) (or_introl eq_refl) eq_refl).
Defined.

(** C6 as stated fails when every obstacle taken into account is more
    than 1000 m ahead.  A roadside load blocks the corridor, the replan
    succeeds, and the one obstacle on the road that is ahead of the ego
    starts 2000 m away: the computed distance is the sentinel 1000, not
    the minimum 2000. *)
Lemma far_obstacle_distance_is_sentinel :
  ApproachObstacle_entry_filter
    (approach_scene [roadside_load; car_ahead 2000]) = true
  /\ planner_keeps start_point
       (frame (approach_scene [roadside_load; car_ahead 2000]))
     = (true, frame (approach_scene [roadside_load; car_ahead 2000]))
  /\ filter
       (is_ahead_on_road
          (front (frame (approach_scene [roadside_load; car_ahead 2000]))))
       [roadside_load; car_ahead 2000]
     = [car_ahead 2000]
  /\ nearest_ahead_on_road
       (frame (approach_scene [roadside_load; car_ahead 2000])) = 1000
  /\ nearest_distance_as_specified
       (front (frame (approach_scene [roadside_load; car_ahead 2000]))) 0
       [roadside_load; car_ahead 2000]
     = 2000
  /\ nearest_ahead_on_road
       (frame (approach_scene [roadside_load; car_ahead 2000]))
     <> nearest_distance_as_specified
          (front (frame (approach_scene [roadside_load; car_ahead 2000]))) 0
          [roadside_load; car_ahead 2000].
Proof.
  split; [reflexivity |]. split; [reflexivity |]. split; [reflexivity |].
  split; [reflexivity |]. split; [reflexivity |].
  intro Habs. apply (f_equal (fun d => d <? 1500)) in Habs.
  vm_compute in Habs. discriminate.
Qed.

(** The roadside load and the car beside the lane, in either order. *)
Lemma obstacle_scans_ignore_order_witness :
  SidePassApproachObstacle_has_blocking_obstacle config (ego 0)
    [car_beside_lane; roadside_load]
  = SidePassApproachObstacle_has_blocking_obstacle config (ego 0)
      [roadside_load; car_beside_lane].
Proof.
  exact (proj1 (proj2 (obstacle_scans_ignore_order nudge_l_buffer config
                         (road 1.8 1.8) (ego 0)
                         (perm_swap roadside_load car_beside_lane [])))).
Defined.

(** DETECT_SAFETY on its scene records the stored path, trimmed at the
    ego, in the debug sink. *)
Lemma debug_sink_after_stage_witness :
  debug (front (frame (snd (SidePassDetectSafety_Process planner_keeps
                              start_point detect_safety_scene))))
  = [{| debug_name := "DpPolyPathOptimizer";
        debug_path_point := [point_at 0; point_at 20] |}].
Proof.
  exact (debug_sink_after_stage planner_keeps nudge_l_buffer
           SidePassDetectSafety start_point detect_safety_scene
           (fun _ _ => eq_refl)).
Defined.

(** A scene whose one obstacle is a virtual marker. *)
Lemma scene_without_candidates_ends_side_pass_witness :
  SidePassBackup_Process planner_fails nudge_l_buffer start_point
    (approach_scene [marker "SP_1" 5])
  = (FINISHED, set_next_stage_ NO_STAGE (approach_scene [marker "SP_1" 5])).
Proof.
  exact (proj1 (scene_without_candidates_ends_side_pass planner_fails
                  nudge_l_buffer start_point
                  (approach_scene [marker "SP_1" 5]) eq_refl)).
Defined.

(** The path planned in GENERATE_PATH, from station 0 to station 20, is
    the stored path after DETECT_SAFETY on the next frame. *)
Lemma generated_path_is_followed_witness :
  path_data_
    (GetContext
       (snd (SidePassDetectSafety_Process
               (planner_yields [point_at 0; point_at 20] [start_point] [])
               start_point
               (set_frame (frame detect_safety_scene)
                  (snd (SidePassGeneratePath_Process
                          (planner_yields [point_at 0; point_at 20]
                             [start_point] [])
                          start_point generate_path_scene))))))
  = [point_at 0; point_at 20].
Proof.
  exact (proj2 (generated_path_is_followed
                  (planner_yields [point_at 0; point_at 20] [start_point] [])
                  start_point start_point generate_path_scene
                  (frame detect_safety_scene)
                  (frame' := snd (planner_yields [point_at 0; point_at 20]
                                    [start_point] [] start_point
                                    (frame generate_path_scene)))
                  (updated := [point_at 0; point_at 20])
                  (trimmed := [point_at 0; point_at 20])
                  eq_refl eq_refl eq_refl)).
Defined.

(** A car that starts 1 m behind the ego's front edge and reaches past
    the ego, after a car 6 m ahead: the distance is negative and the
    stage returns ERROR. *)
Lemma front_obstacle_distance_sign_witness :
  fst (SidePassApproachObstacle_Process planner_keeps start_point
         (approach_scene [car_ahead 6; parked "1005" (-1) 3 (-0.5) 0.5]))
  = ERROR.
Proof.
  apply (proj2 (proj2 (front_obstacle_distance_sign
                         (H0 := DoubleOrderedArith_float) planner_keeps
                         (front (frame (approach_scene [])))
                         (end_s (ego 0))
                         [car_ahead 6; parked "1005" (-1) 3 (-0.5) 0.5]
                         eq_refl eq_refl))
           start_point
           (approach_scene [car_ahead 6; parked "1005" (-1) 3 (-0.5) 0.5])
           (frame (approach_scene
                     [car_ahead 6; parked "1005" (-1) 3 (-0.5) 0.5]))
           eq_refl eq_refl).
  exists (parked "1005" (-1) 3 (-0.5) 0.5).
  split; [right; left; reflexivity |]. split; reflexivity.
Defined.

(** In a lane of 0.2 m on either side the car beside the lane, 1.5 m off
    the centre line, is a blocking obstacle of BACKUP. *)
Lemma driving_width_at_most_lane_width_witness :
  SidePassBackup_has_blocking_obstacle nudge_l_buffer config (road 0.2 0.2)
    (ego 0) [car_beside_lane] = true.
Proof.
  rewrite (proj2 (driving_width_at_most_lane_width
                    (H0 := DoubleOrderedArith_float) nudge_l_buffer eq_refl)
             config (ego 0) (road 0.2 0.2) [car_beside_lane]).
  - reflexivity.
  - intro s. repeat split; reflexivity.
Defined.

(** A parked car whose footprint is NaN blocks APPROACH_OBSTACLE. *)
Lemma nan_footprint_obstacle_witness :
  SidePassApproachObstacle_has_blocking_obstacle config (ego 0)
    [parked "1006" nan nan nan nan] = true.
Proof.
  exact (proj1 (proj2 (nan_footprint_obstacle nudge_l_buffer (road 1.8 1.8)
                         (ego 0) [] []
                         (config := config)
                         (o := parked "1006" nan nan nan nan)
                         eq_refl eq_refl eq_refl eq_refl eq_refl eq_refl))).
Defined.

(** The parked car of section 8 in a lane of 0.5 m on either side keeps
    BACKUP running: the planner was called on the frame of the stage and
    succeeded. *)
Lemma running_stage_has_planned_witness :
  fst (planner_keeps start_point
         (scene 0 1 (road 0.5 0.5) [parked_car] [] [])) = true.
Proof.
  exact (proj1 (proj2 (running_stage_has_planned planner_keeps nudge_l_buffer
                         SidePassBackup start_point
                         (stage_on SIDE_PASS_BACKUP []
                            (scene 0 1 (road 0.5 0.5) [parked_car] [] []))
                         eq_refl))).
Defined.
